(** * Year aggregation of (journal, year) records: the four reviewed variants

    Shallow embedding of the notebook's functions [generateJournalNames],
    [generateYears], [generateData], [generateDictInefficient],
    [generateDictEfficient1], [getUpdateValue], [generateDictEfficient2] and
    [generateDictEfficientFor].

    Python objects that the functions share and mutate (the year
    dictionaries, the list or zip object holding the records) live in an
    explicit store; locals that are never shared (the comprehension
    results [data_years], [all_years], the generated name and year lists)
    are plain values.  Exceptions end the run.  The two random generators
    ([random] and [numpy.random]) are streams of draws carried in the
    state, so that every theorem quantifies over every outcome of the
    draws.  The calls to [time.time] and [print] only report the elapsed
    time and are left out. *)

From Stdlib Require Import ZArith String Ascii Lia.
From stdpp Require Import gmap list strings fin_maps.

Open Scope Z_scope.

(** ** Data model *)

(** A record is the pair (journal name, year); [pair[1]] is [pair.2]. *)
Definition record : Type := string * Z.

(** Store locations: the index of the object in the store. *)
Definition loc : Type := nat.

(** Objects of the store.  A [dict] has no default factory, a
    [defaultdict(lambda:0)] has the default [Some 0].  A zip object holds
    the pairs it has not produced yet. *)
Inductive obj : Type :=
| ODict (default_factory : option Z) (items : gmap Z Z)
| OList (elems : list record)
| OZip (pending : list record).

Record state : Type := State {
  heap : list obj;
  py_random : nat -> nat;   (* draws of the [random] module, next one first *)
  np_random : nat -> nat    (* draws of [numpy.random], next one first *)
}.

Inductive exn : Type :=
| KeyError (k : Z)
| IndexError
| ValueError
| Fault.                    (* a location that holds no object of the expected kind *)

Inductive outcome (A : Type) : Type :=
| Ok (a : A)
| Raise (e : exn).
Arguments Ok {A} a.
Arguments Raise {A} e.

(** ** The state-and-exception monad *)

Definition M (A : Type) : Type := state -> outcome (A * state).

Definition ret {A} (a : A) : M A := fun s => Ok (a, s).

Definition bind {A B} (m : M A) (k : A -> M B) : M B :=
  fun s => match m s with
           | Ok (a, s') => k a s'
           | Raise e => Raise e
           end.

Definition raise {A} (e : exn) : M A := fun _ => Raise e.

Notation "'let*' x ':=' m 'in' k" := (bind m (fun x => k))
  (at level 10, x binder, m at level 100, k at level 200).
Notation "m ';;' k" := (bind m (fun _ => k))
  (at level 100, k at level 200, right associativity).

Definition set_heap (s : state) (h : list obj) : state :=
  State h (py_random s) (np_random s).

(** ** Store primitives *)

Definition alloc (o : obj) : M loc :=
  fun s => Ok (length (heap s), set_heap s (heap s ++ [o])).

(** [defaultdict(lambda:d)] *)
Definition defaultdict (d : Z) : M loc := alloc (ODict (Some d) ∅).

(** [yearDict[k]]: a missing key raises [KeyError] in a [dict]; a
    [defaultdict] stores the default under the key and returns it. *)
Definition getitem (d : loc) (k : Z) : M Z :=
  fun s => match heap s !! d with
           | Some (ODict df m) =>
               match m !! k with
               | Some v => Ok (v, s)
               | None =>
                   match df with
                   | Some v0 => Ok (v0, set_heap s (<[d := ODict df (<[k := v0]> m)]> (heap s)))
                   | None => Raise (KeyError k)
                   end
               end
           | _ => Raise Fault
           end.

(** [yearDict[k] = v] *)
Definition setitem (d : loc) (k v : Z) : M unit :=
  fun s => match heap s !! d with
           | Some (ODict df m) => Ok (tt, set_heap s (<[d := ODict df (<[k := v]> m)]> (heap s)))
           | _ => Raise Fault
           end.

(** [yearDict[k] += v] *)
Definition iadd (d : loc) (k v : Z) : M unit :=
  let* old := getitem d k in
  setitem d k (old + v).

(** [d.update(u)]: every item of [u] is stored in [d]. *)
Definition dict_update (d u : loc) : M unit :=
  fun s => match heap s !! d, heap s !! u with
           | Some (ODict df m), Some (ODict _ mu) =>
               Ok (tt, set_heap s (<[d := ODict df (mu ∪ m)]> (heap s)))
           | _, _ => Raise Fault
           end.

(** The items an iteration over the object at [l] produces.  A list is
    left as it is; a zip object is used up.  The items are taken when the
    loop starts: no loop body of the program touches the object it
    iterates over, and a run that raises has no final store. *)
Definition iter_items (l : loc) : M (list record) :=
  fun s => match heap s !! l with
           | Some (OList xs) => Ok (xs, s)
           | Some (OZip xs) => Ok (xs, set_heap s (<[l := OZip []]> (heap s)))
           | _ => Raise Fault
           end.

(** ** Loops and comprehensions *)

Fixpoint for_each {A} (xs : list A) (body : A -> M unit) : M unit :=
  match xs with
  | [] => ret tt
  | x :: xs' => body x ;; for_each xs' body
  end.

Fixpoint list_comp {A B} (xs : list A) (f : A -> M B) : M (list B) :=
  match xs with
  | [] => ret []
  | x :: xs' =>
      let* y := f x in
      let* ys := list_comp xs' f in
      ret (y :: ys)
  end.

(** [for x in l: body] and [[f(x) for x in l]] over a stored iterable. *)
Definition for_in (l : loc) (body : record -> M unit) : M unit :=
  let* xs := iter_items l in
  for_each xs body.

Definition list_comp_in {B} (l : loc) (f : record -> M B) : M (list B) :=
  let* xs := iter_items l in
  list_comp xs f.

(** [{k: f(k) for k in keys}] *)
Definition dict_comp (keys : list Z) (f : Z -> M Z) : M loc :=
  let* d := alloc (ODict None ∅) in
  for_each keys (fun k => let* v := f k in setitem d k v) ;;
  ret d.

(** [{k1: v1, ...}] *)
Definition dict_literal (items : list (Z * Z)) : M loc :=
  let* d := alloc (ODict None ∅) in
  for_each items (fun kv => setitem d (kv.1) (kv.2)) ;;
  ret d.

(** [list(x)]: a new list with the items of [x]. *)
Definition list_ (x : loc) : M loc :=
  let* xs := iter_items x in
  alloc (OList xs).

(** [range(a, b)] and [range(n)] *)
Definition range (a b : Z) : list Z := seqZ a (b - a).
Definition range_n (n : nat) : list nat := seq 0 n.

(** [int(x)] of an integer *)
Definition int (x : Z) : Z := x.

(** [l.count(y)] *)
Fixpoint list_count (l : list Z) (y : Z) : Z :=
  match l with
  | [] => 0
  | x :: l' => (if decide (x = y) then 1 else 0) + list_count l' y
  end.

(** [sum(d.values())] *)
Definition sum_values (m : gmap Z Z) : Z := map_fold (fun _ v acc => v + acc) 0 m.

(** ** Random draws *)

Definition draw_py : M nat :=
  fun s => Ok (py_random s 0%nat, State (heap s) (fun i => py_random s (S i)) (np_random s)).

Definition draw_np : M nat :=
  fun s => Ok (np_random s 0%nat, State (heap s) (py_random s) (fun i => np_random s (S i))).

(** [random.choice(seq)]: the item at a random index below [len(seq)];
    every index arises from some draw. *)
Definition random_choice {A} (seq : list A) : M A :=
  let* r := draw_py in
  match seq !! (r mod length seq)%nat with
  | Some a => ret a
  | None => raise IndexError
  end.

(** [np.random.choice(a, size)]: [size] independent draws from [a]. *)
Fixpoint np_random_choice (a : list Z) (size : nat) : M (list Z) :=
  match size with
  | O => ret []
  | S size' =>
      let* r := draw_np in
      match a !! (r mod length a)%nat with
      | Some y =>
          let* ys := np_random_choice a size' in
          ret (y :: ys)
      | None => raise ValueError
      end
  end.

(** The one-character strings of a string, and [''.join]. *)
Fixpoint chars (s : string) : list string :=
  match s with
  | EmptyString => []
  | String c s' => String c EmptyString :: chars s'
  end.

Definition join (parts : list string) : string := String.concat "" parts.

(** ** The data generator

    The count [n] is a natural number: the functions are called with
    non-negative counts only.  The years that numpy draws are integers
    (they compare and hash like Python's). *)

Definition generateJournalNames (n : nat) : M (list string) :=
  let* list_of_journals :=
    list_comp (range_n n) (fun _ =>
      let* letters := list_comp (range_n 3) (fun _ => random_choice (chars "ABCD")) in
      ret (join letters)) in
  ret list_of_journals.

Definition generateYears (n : nat) : M (list Z) :=
  let* years_list := np_random_choice (range 2000 2018) n in
  ret years_list.

(** Returns the location of the zip object. *)
Definition generateData (n : nat) : M loc :=
  let* journals := generateJournalNames n in
  let* years_list := generateYears n in
  alloc (OZip (zip journals years_list)).

(** ** The aggregators

    Each takes the expression that stands where the source has
    [generateData(n)], so that the same body runs on generated data and on
    a given sequence. *)

Definition generateDictInefficient_with (source : M loc) : M loc :=
  let* yearDict := defaultdict 0 in
  let* data := source in
  let* journal_year := list_ data in
  for_each (range 2000 (2018 + 1)) (fun year =>
    getitem yearDict year ;;
    for_in journal_year (fun pair =>
      if decide (year = int (pair.2))
      then iadd yearDict year 1
      else ret tt)) ;;
  ret yearDict.

Definition generateDictEfficient1_with (source : M loc) : M loc :=
  let* journal_year := source in
  let* data_years := list_comp_in journal_year (fun pair => ret (pair.2)) in
  let* all_years := list_comp (range 2000 2019) (fun i => ret i) in
  let* yearDict := dict_comp all_years (fun y => ret (list_count data_years y)) in
  ret yearDict.

Definition getUpdateValue (x : record) (yearDict : loc) : M loc :=
  let year := x.2 in
  let* value := getitem yearDict year in
  let* update_dict := dict_literal [(year, value + 1)] in
  ret update_dict.

Definition generateDictEfficient2_with (source : M loc) : M loc :=
  let* yearDict := dict_comp (range 2000 (2018 + 1)) (fun _ => ret 0) in
  let* journal_year := source in
  let* update_dict :=
    list_comp_in journal_year (fun x =>
      let* u := getUpdateValue x yearDict in
      dict_update yearDict u) in
  ret yearDict.

Definition generateDictEfficientFor_with (source : M loc) : M loc :=
  let* journal_year := source in
  let* yearDict := dict_comp (range 2000 (2018 + 1)) (fun _ => ret 0) in
  for_in journal_year (fun jy => iadd yearDict (jy.2) 1) ;;
  ret yearDict.

Definition generateDictInefficient (n : nat) : M loc :=
  generateDictInefficient_with (generateData n).
Definition generateDictEfficient1 (n : nat) : M loc :=
  generateDictEfficient1_with (generateData n).
Definition generateDictEfficient2 (n : nat) : M loc :=
  generateDictEfficient2_with (generateData n).
Definition generateDictEfficientFor (n : nat) : M loc :=
  generateDictEfficientFor_with (generateData n).

Inductive variant : Type := Inefficient | Efficient1 | Efficient2 | EfficientFor.

Definition generateDict_with (v : variant) : M loc -> M loc :=
  match v with
  | Inefficient => generateDictInefficient_with
  | Efficient1 => generateDictEfficient1_with
  | Efficient2 => generateDictEfficient2_with
  | EfficientFor => generateDictEfficientFor_with
  end.

Definition generateDict (v : variant) (n : nat) : M loc :=
  generateDict_with v (generateData n).

(** ** Observing a run *)

(** The items of the dictionary a run returned. *)
Definition returned_table (r : outcome (loc * state)) : outcome (gmap Z Z) :=
  match r with
  | Ok (d, s) =>
      match heap s !! d with
      | Some (ODict _ m) => Ok m
      | _ => Raise Fault
      end
  | Raise e => Raise e
  end.

(** The data generation replaced by a given sequence, held in a list. *)
Definition given (recs : list record) : M loc := alloc (OList recs).

Definition aggregate (v : variant) (recs : list record) (s : state) : outcome (gmap Z Z) :=
  returned_table (generateDict_with v (given recs) s).

Definition empty_state : state := State [] (fun _ => 0%nat) (fun _ => 0%nat).

(** ** Specification vocabulary *)

Definition in_range (y : Z) : Prop := 2000 <= y <= 2018.

(** The number of records whose year field equals [Y]. *)
Definition records_with_year (Y : Z) (recs : list record) : Z :=
  Z.of_nat (length (filter (fun r : record => r.2 = Y) recs)).

(** The number of records whose year lies in 2000..2018. *)
Definition records_in_range (recs : list record) : Z :=
  Z.of_nat (length (filter (fun r : record => in_range (r.2)) recs)).

(** The table the specification describes: one entry for every year of
    2000..2018, holding the number of records of that year. *)
Definition year_table (recs : list record) : gmap Z Z :=
  list_to_map ((fun y => (y, records_with_year y recs)) <$> seqZ 2000 19).

(** What a run on the store [s] promises about its final store [s']: the
    store only grows, and every object of [s] other than a zip object is
    still what it was. *)
Definition frame (s s' : state) : Prop :=
  (length (heap s) <= length (heap s'))%nat /\
  forall i o, heap s !! i = Some o -> (forall xs, o <> OZip xs) -> heap s' !! i = Some o.

(** The object at [l] produces the records [recs] when iterated. *)
Definition holds_records (s : state) (l : loc) (recs : list record) : Prop :=
  heap s !! l = Some (OList recs) \/ heap s !! l = Some (OZip recs).

(** The data source [src], run from [s0], returns [l] holding [recs]. *)
Definition source_yields (src : M loc) (s0 : state) (l : loc) (s1 : state)
    (recs : list record) : Prop :=
  src s0 = Ok (l, s1) /\ frame s0 s1 /\ holds_records s1 l recs.

(** The run from [s] returned the fresh dictionary [d], which holds the
    year table of [recs] in the final store [s']. *)
Definition returns_table (s : state) (d : loc) (s' : state) (recs : list record) : Prop :=
  frame s s' /\ (length (heap s) <= d)%nat /\
  exists df, heap s' !! d = Some (ODict df (year_table recs)).

(** A well-formed label: 3 characters, each one of A, B, C, D. *)
Definition label_ok (lbl : string) : Prop :=
  String.length lbl = 3%nat /\
  Forall (fun c => c ∈ chars "ABCD") (chars lbl).

(** The items of a dictionary after [for k in keys: d[k] = f(k)]. *)
Definition fill (f : Z -> Z) (keys : list Z) (m : gmap Z Z) : gmap Z Z :=
  foldl (fun m k => <[k := f k]> m) m keys.

(** The items after [for y in ys: d[y] += 1], all keys being present. *)
Definition tally (ys : list Z) (m : gmap Z Z) : gmap Z Z :=
  foldl (fun m y => <[y := default 0 (m !! y) + 1]> m) m ys.

(** The items of the [defaultdict] after the nested loops over [years]
    and the years [data] of the records. *)
Definition scan (data years : list Z) (m : gmap Z Z) : gmap Z Z :=
  foldl (fun m y => <[y := default 0 (m !! y) + list_count data y]> m) m years.

(** The first key of [ys] that the dictionary items [m] do not have. *)
Fixpoint first_missing (m : gmap Z Z) (ys : list Z) : option Z :=
  match ys with
  | [] => None
  | y :: ys' => if m !! y is Some _ then first_missing m ys' else Some y
  end.

(** The dictionary [{y: 0 for y in range(2000, 2018+1)}]. *)
Definition zero_table : gmap Z Z := fill (fun _ => 0) (range 2000 (2018 + 1)) ∅.

(** What a variant computes from the records [recs]: the two counting
    variants that never index the dictionary by a record's year always
    return the year table; the two that do raise [KeyError] at the first
    year that is not a key. *)
Definition expected_outcome (v : variant) (recs : list record) : outcome (gmap Z Z) :=
  match v with
  | Inefficient | Efficient1 => Ok (year_table recs)
  | Efficient2 | EfficientFor =>
      match first_missing zero_table (recs.*2) with
      | None => Ok (year_table recs)
      | Some y => Raise (KeyError y)
      end
  end.

(** The store in which a variant evaluates its data source: two of the
    variants create their dictionary first. *)
Definition pre_state (v : variant) (s : state) : state :=
  match v with
  | Inefficient => set_heap s (heap s ++ [ODict (Some 0) ∅])
  | Efficient2 => set_heap s (heap s ++ [ODict None zero_table])
  | Efficient1 | EfficientFor => s
  end.

(** The items of the dictionary stored at [d], if there is one. *)
Definition table_at (s : state) (d : loc) : option (gmap Z Z) :=
  match heap s !! d with
  | Some (ODict _ m) => Some m
  | _ => None
  end.

(** The inputs on which a variant returns: any sequence for the two
    variants that never index by a record's year, the sequences with all
    years in 2000..2018 for the other two. *)
Definition returns_on (v : variant) (recs : list record) : Prop :=
  v = Inefficient \/ v = Efficient1 \/ Forall (fun r : record => in_range (r.2)) recs.

(** ** The unit tests

    A test method ends with [self.assertEqual]; the runner reports a
    pass, a failure (the assertion does not hold) or an error (another
    exception).  The record counts 10000 and 100 are written
    [Z.to_nat 10000] and [Z.to_nat 100]. *)

Inductive verdict : Type :=
| Passed
| Failed
| Errored (e : exn).

(** [self.assertEqual(a, b)] *)
Definition assertEqual (a b : Z) : verdict :=
  if decide (a = b) then Passed else Failed.

(** [sum(result.values())] on a stored dictionary *)
Definition values_sum (result : loc) : M Z :=
  fun s => match heap s !! result with
           | Some (ODict _ m) => Ok (sum_values m, s)
           | _ => Raise Fault
           end.

Definition run_test (t : M verdict) (s : state) : verdict :=
  match t s with
  | Ok (v, _) => v
  | Raise e => Errored e
  end.

Definition test0 : M verdict :=
  let* result := generateDictInefficient (Z.to_nat 10000) in
  let* result_size := values_sum result in
  ret (assertEqual result_size 10000).

Definition test1 : M verdict :=
  let* result := generateDictEfficient1 (Z.to_nat 10000) in
  let* result_size := values_sum result in
  ret (assertEqual result_size 10000).

Definition test2 : M verdict :=
  let* result := generateDictEfficient2 (Z.to_nat 10000) in
  let* result_size := values_sum result in
  ret (assertEqual result_size 10000).

Definition test3 : M verdict :=
  let* result := generateDictEfficientFor (Z.to_nat 100) in
  let* result_size := values_sum result in
  ret (assertEqual result_size 100).

(** ** The generated data as a function of the draws *)

(** The letter that [random.choice('ABCD')] returns on the draw [r]. *)
Definition letter_of (r : nat) : string :=
  default ""%string (chars "ABCD" !! (r mod 4)%nat).

(** The [k]-th journal name: the three letters of the draws [3k],
    [3k+1], [3k+2] of the [random] module. *)
Definition name_of (py : nat -> nat) (k : nat) : string :=
  join [letter_of (py (3 * k)%nat); letter_of (py (3 * k + 1)%nat);
        letter_of (py (3 * k + 2)%nat)].

(** The [k]-th year: the [k]-th draw of [numpy.random], taken in
    [range(2000, 2018)]. *)
Definition year_of (np : nat -> nat) (k : nat) : Z :=
  2000 + Z.of_nat (np k mod 18).

Definition generated (n : nat) (py np : nat -> nat) : list record :=
  (fun k => (name_of py k, year_of np k)) <$> seq 0 n.

(** Draws that produce given names and years. *)
Definition letter_index (c : string) : nat :=
  if decide (c = "A"%string) then 0%nat
  else if decide (c = "B"%string) then 1%nat
  else if decide (c = "C"%string) then 2%nat
  else 3%nat.

Definition draws_for_names (names : list string) : nat -> nat :=
  fun i => letter_index (nth (i mod 3) (chars (nth (i / 3) names ""%string)) ""%string).

Definition draws_for_years (years : list Z) : nat -> nat :=
  fun i => Z.to_nat (nth i years 2000 - 2000).

(** ** The store after an aggregation *)

(** The store after the object at [l] has been iterated over: a zip
    object has no pair left. *)
Definition consumed (l : loc) (h : list obj) : list obj :=
  match h !! l with
  | Some (OZip _) => <[l := OZip []]> h
  | _ => h
  end.

(** The one-entry dictionaries that the calls of [getUpdateValue] create
    for the years [ys], starting from the items [m]. *)
Fixpoint update_dicts (ys : list Z) (m : gmap Z Z) : list obj :=
  match ys with
  | [] => []
  | y :: ys' =>
      ODict None {[y := default 0 (m !! y) + 1]}
        :: update_dicts ys' (<[y := default 0 (m !! y) + 1]> m)
  end.

(** The objects a variant appends to the store, in order.  The store
    holds the objects that are shared or returned (the dictionaries and
    the list copy); the comprehension results [data_years], [all_years]
    and [update_dict] are plain values of the model and do not appear
    here, so this is no count of the Python objects created. *)
Definition allocated (v : variant) (recs : list record) : list obj :=
  match v with
  | Inefficient => [ODict (Some 0) (year_table recs); OList recs]
  | Efficient1 | EfficientFor => [ODict None (year_table recs)]
  | Efficient2 => ODict None (year_table recs) :: update_dicts (recs.*2) zero_table
  end.

(** ** The monad and the store *)

Lemma bind_Ok {A B} (m : M A) (k : A -> M B) s a s' :
  m s = Ok (a, s') -> bind m k s = k a s'.
Proof. intros H. unfold bind. now rewrite H. Qed.

Lemma bind_Raise {A B} (m : M A) (k : A -> M B) s e :
  m s = Raise e -> bind m k s = Raise e.
Proof. intros H. unfold bind. now rewrite H. Qed.

Lemma heap_set_heap s h : heap (set_heap s h) = h.
Proof. reflexivity. Qed.

Lemma set_heap_set_heap s h h' : set_heap (set_heap s h) h' = set_heap s h'.
Proof. reflexivity. Qed.

Lemma set_heap_heap s : set_heap s (heap s) = s.
Proof. now destruct s. Qed.

Lemma set_heap_insert_id s d o :
  heap s !! d = Some o -> set_heap s (<[d := o]> (heap s)) = s.
Proof. intros H. rewrite list_insert_id by exact H. apply set_heap_heap. Qed.

Lemma frame_refl s : frame s s.
Proof. split; [lia | auto]. Qed.

Lemma frame_trans s1 s2 s3 : frame s1 s2 -> frame s2 s3 -> frame s1 s3.
Proof.
  intros [L1 P1] [L2 P2]. split; [lia |].
  intros i o Hi Ho. apply P2; [apply P1 |]; assumption.
Qed.

Lemma frame_app s ext : frame s (set_heap s (heap s ++ ext)).
Proof.
  split; simpl.
  - rewrite length_app. lia.
  - intros i o Hi _. now apply lookup_app_l_Some.
Qed.

(** Overwriting an object that the old store did not have, or a zip
    object, keeps the frame. *)
Lemma frame_insert_fresh s s' d o :
  frame s s' -> (length (heap s) <= d)%nat -> frame s (set_heap s' (<[d := o]> (heap s'))).
Proof.
  intros [L P] Hd. split; simpl.
  - rewrite length_insert. exact L.
  - intros i o' Hi Ho. rewrite list_lookup_insert_ne.
    + now apply P.
    + apply lookup_lt_Some in Hi. lia.
Qed.

Lemma frame_insert_zip s l xs ys :
  heap s !! l = Some (OZip xs) -> frame s (set_heap s (<[l := OZip ys]> (heap s))).
Proof.
  intros Hl. split; simpl.
  - rewrite length_insert. lia.
  - intros i o Hi Ho. destruct (decide (l = i)) as [->|Hne].
    + rewrite Hl in Hi. injection Hi as <-. now destruct (Ho xs).
    + now rewrite list_lookup_insert_ne.
Qed.

(** ** Store primitives *)

Lemma alloc_Ok o s : alloc o s = Ok (length (heap s), set_heap s (heap s ++ [o])).
Proof. reflexivity. Qed.

Lemma lookup_alloc (h : list obj) o : (h ++ [o]) !! length h = Some o.
Proof. now rewrite list_lookup_middle. Qed.

Lemma getitem_present d k s df m v :
  heap s !! d = Some (ODict df m) -> m !! k = Some v -> getitem d k s = Ok (v, s).
Proof. intros Hd Hk. unfold getitem. now rewrite Hd, Hk. Qed.

Lemma getitem_default d k s v0 m :
  heap s !! d = Some (ODict (Some v0) m) -> m !! k = None ->
  getitem d k s = Ok (v0, set_heap s (<[d := ODict (Some v0) (<[k := v0]> m)]> (heap s))).
Proof. intros Hd Hk. unfold getitem. now rewrite Hd, Hk. Qed.

Lemma getitem_missing d k s m :
  heap s !! d = Some (ODict None m) -> m !! k = None -> getitem d k s = Raise (KeyError k).
Proof. intros Hd Hk. unfold getitem. now rewrite Hd, Hk. Qed.

Lemma setitem_Ok d k v s df m :
  heap s !! d = Some (ODict df m) ->
  setitem d k v s = Ok (tt, set_heap s (<[d := ODict df (<[k := v]> m)]> (heap s))).
Proof. intros Hd. unfold setitem. now rewrite Hd. Qed.

Lemma iadd_present d k a s df m v :
  heap s !! d = Some (ODict df m) -> m !! k = Some v ->
  iadd d k a s = Ok (tt, set_heap s (<[d := ODict df (<[k := v + a]> m)]> (heap s))).
Proof.
  intros Hd Hk. unfold iadd.
  rewrite (bind_Ok _ _ _ _ _ (getitem_present _ _ _ _ _ _ Hd Hk)).
  now apply setitem_Ok.
Qed.

Lemma iadd_missing d k a s m :
  heap s !! d = Some (ODict None m) -> m !! k = None -> iadd d k a s = Raise (KeyError k).
Proof.
  intros Hd Hk. unfold iadd. apply bind_Raise. now apply getitem_missing with (m := m).
Qed.

Lemma lookup_insert_heap (h : list obj) d o o' :
  h !! d = Some o -> <[d := o']> h !! d = Some o'.
Proof. intros H. apply list_lookup_insert_eq. now apply lookup_lt_Some in H. Qed.

Lemma iter_items_list l s xs :
  heap s !! l = Some (OList xs) -> iter_items l s = Ok (xs, s).
Proof. intros H. unfold iter_items. now rewrite H. Qed.

Lemma iter_items_zip l s xs :
  heap s !! l = Some (OZip xs) ->
  iter_items l s = Ok (xs, set_heap s (<[l := OZip []]> (heap s))).
Proof. intros H. unfold iter_items. now rewrite H. Qed.

(** Iterating over an object that holds [recs] produces [recs]; the
    store keeps its length, its lists and its dictionaries. *)
Lemma iter_items_holds l s recs :
  holds_records s l recs ->
  exists s', iter_items l s = Ok (recs, s') /\ frame s s' /\
             length (heap s') = length (heap s) /\
             (forall i, i <> l -> heap s' !! i = heap s !! i).
Proof.
  intros [H|H].
  - exists s. rewrite (iter_items_list _ _ _ H). auto using frame_refl.
  - eexists. rewrite (iter_items_zip _ _ _ H). split; [reflexivity|].
    split; [now apply frame_insert_zip with (xs := recs)|].
    simpl. split; [apply length_insert|].
    intros i Hi. now apply list_lookup_insert_ne.
Qed.

(** A comprehension whose element expression has no effect is [map]. *)
Lemma list_comp_pure {A B} (f : A -> B) (xs : list A) s :
  list_comp xs (fun x => ret (f x)) s = Ok (f <$> xs, s).
Proof.
  induction xs as [|x xs IH]; [reflexivity|].
  simpl. unfold bind at 1. simpl. unfold bind at 1. now rewrite IH.
Qed.

(** ** The dictionaries the loops build *)

Lemma in_range_seqZ Y : Y ∈ seqZ 2000 19 <-> in_range Y.
Proof. rewrite elem_of_seqZ. unfold in_range. lia. Qed.

Lemma in_range_range Y : Y ∈ range 2000 (2018 + 1) <-> in_range Y.
Proof. apply in_range_seqZ. Qed.

Lemma year_table_lookup recs Y :
  year_table recs !! Y =
  if decide (in_range Y) then Some (records_with_year Y recs) else None.
Proof.
  unfold year_table. destruct (decide (in_range Y)) as [HY|HY].
  - apply elem_of_list_to_map_1.
    + rewrite <- list_fmap_compose.
      replace (fst ∘ (fun y : Z => (y, records_with_year y recs))) with (@id Z) by reflexivity.
      rewrite list_fmap_id. apply NoDup_seqZ.
    + apply (list_elem_of_fmap_2 (fun y : Z => (y, records_with_year y recs))).
      now apply in_range_seqZ.
  - apply not_elem_of_list_to_map_1. intros Hin. apply HY.
    rewrite <- list_fmap_compose in Hin.
    replace (fst ∘ (fun y : Z => (y, records_with_year y recs))) with (@id Z) in Hin by reflexivity.
    rewrite list_fmap_id in Hin. now apply in_range_seqZ.
Qed.

Lemma list_count_records recs Y : list_count (recs.*2) Y = records_with_year Y recs.
Proof.
  unfold records_with_year. induction recs as [|r recs IH]; [reflexivity|].
  cbn [fmap list_fmap list_count]. rewrite IH, filter_cons.
  destruct (decide (r.2 = Y)); cbn [length]; lia.
Qed.

Lemma fill_lookup f keys m Y :
  fill f keys m !! Y = if decide (Y ∈ keys) then Some (f Y) else m !! Y.
Proof.
  unfold fill. revert m. induction keys as [|k keys IH]; intros m; cbn [foldl].
  - destruct (decide (Y ∈ [])) as [H|_]; [|reflexivity]. now apply elem_of_nil in H.
  - rewrite IH. destruct (decide (Y ∈ keys)) as [Hin|Hnin].
    + rewrite decide_True by (now right). reflexivity.
    + destruct (decide (k = Y)) as [->|Hne].
      * rewrite decide_True by left. apply lookup_insert_eq.
      * rewrite lookup_insert_ne by exact Hne.
        rewrite decide_False; [reflexivity|].
        intros H. apply elem_of_cons in H as [->|H]; [now apply Hne | now apply Hnin].
Qed.

Lemma tally_lookup ys m Y :
  Forall (fun y => is_Some (m !! y)) ys ->
  tally ys m !! Y = (fun v => v + list_count ys Y) <$> m !! Y.
Proof.
  unfold tally. revert m. induction ys as [|y ys IH]; intros m Hys; cbn [foldl list_count].
  - destruct (m !! Y); cbn; [f_equal; lia | reflexivity].
  - apply Forall_cons in Hys as [[v Hv] Hys]. rewrite IH.
    + rewrite Hv. cbn [default]. destruct (decide (y = Y)) as [->|Hne].
      * rewrite lookup_insert_eq, Hv. cbn. f_equal. lia.
      * rewrite lookup_insert_ne by exact Hne.
        destruct (m !! Y); cbn; [f_equal; lia | reflexivity].
    + eapply Forall_impl; [exact Hys|]. intros z Hz. cbn in Hz.
      destruct (decide (y = z)) as [->|Hne].
      * rewrite lookup_insert_eq. eauto.
      * now rewrite lookup_insert_ne.
Qed.

Lemma scan_lookup data years m Y :
  NoDup years -> Forall (fun y => m !! y = None) years ->
  scan data years m !! Y =
  if decide (Y ∈ years) then Some (list_count data Y) else m !! Y.
Proof.
  unfold scan. revert m. induction years as [|y years IH]; intros m Hnd Hm; cbn [foldl].
  - destruct (decide (Y ∈ [])) as [H|_]; [|reflexivity]. now apply elem_of_nil in H.
  - apply NoDup_cons in Hnd as [Hy Hnd]. apply Forall_cons in Hm as [Hmy Hm].
    rewrite IH; [|exact Hnd|].
    + rewrite Hmy. cbn [default]. destruct (decide (Y ∈ years)) as [Hin|Hnin].
      * rewrite decide_True by (now right). reflexivity.
      * destruct (decide (y = Y)) as [->|Hne].
        -- rewrite decide_True by left. rewrite lookup_insert_eq. reflexivity.
        -- rewrite lookup_insert_ne by exact Hne.
           rewrite decide_False; [reflexivity|].
           intros H. apply elem_of_cons in H as [->|H]; [now apply Hne | now apply Hnin].
    + rewrite Forall_forall in Hm. apply Forall_forall. intros z Hz.
      rewrite lookup_insert_ne; [now apply Hm|]. intros ->. now apply Hy.
Qed.

(** The three ways of building the dictionary all give the year table. *)
Lemma fill_year_table recs :
  fill (fun y => list_count (recs.*2) y) (range 2000 2019) ∅ = year_table recs.
Proof.
  apply map_eq. intros Y. rewrite fill_lookup, year_table_lookup.
  destruct (decide (in_range Y)) as [HY|HY].
  - rewrite decide_True by (now apply in_range_seqZ). now rewrite list_count_records.
  - rewrite decide_False by (now rewrite in_range_seqZ). apply lookup_empty.
Qed.

Lemma fill_zero_lookup Y :
  zero_table !! Y = if decide (in_range Y) then Some 0 else None.
Proof.
  unfold zero_table. rewrite fill_lookup. destruct (decide (in_range Y)) as [HY|HY].
  - now rewrite decide_True by (now apply in_range_range).
  - rewrite decide_False by (now rewrite in_range_range). apply lookup_empty.
Qed.

Lemma tally_year_table recs :
  Forall (fun r : record => in_range (r.2)) recs ->
  tally (recs.*2) zero_table = year_table recs.
Proof.
  intros Hin. apply map_eq. intros Y. rewrite tally_lookup.
  - rewrite fill_zero_lookup, year_table_lookup.
    destruct (decide (in_range Y)); [|reflexivity].
    cbn. now rewrite list_count_records.
  - apply Forall_fmap. eapply Forall_impl; [exact Hin|].
    intros r Hr. cbn. rewrite fill_zero_lookup. rewrite decide_True by exact Hr. eauto.
Qed.

Lemma scan_year_table recs :
  scan (recs.*2) (range 2000 (2018 + 1)) ∅ = year_table recs.
Proof.
  apply map_eq. intros Y. rewrite scan_lookup.
  - rewrite year_table_lookup. destruct (decide (in_range Y)) as [HY|HY].
    + rewrite decide_True by (now apply in_range_range). now rewrite list_count_records.
    + rewrite decide_False by (now rewrite in_range_range). apply lookup_empty.
  - apply NoDup_seqZ.
  - apply Forall_forall. intros y _. apply lookup_empty.
Qed.

Lemma first_missing_insert m k v ys :
  is_Some (m !! k) -> first_missing (<[k := v]> m) ys = first_missing m ys.
Proof.
  intros Hk. induction ys as [|y ys IH]; [reflexivity|]. cbn [first_missing].
  rewrite IH. destruct (decide (k = y)) as [->|Hne].
  - rewrite lookup_insert_eq. now destruct Hk as [w ->].
  - now rewrite lookup_insert_ne.
Qed.

Lemma first_missing_None m ys :
  first_missing m ys = None <-> Forall (fun y => is_Some (m !! y)) ys.
Proof.
  induction ys as [|y ys IH]; cbn [first_missing].
  - split; [constructor | reflexivity].
  - rewrite Forall_cons. destruct (m !! y) as [v|].
    + rewrite IH. split; [intros H; split; eauto | intros [_ H]; exact H].
    + split; [discriminate | intros [[w Hw] _]; discriminate].
Qed.

Lemma first_missing_Some m ys y :
  first_missing m ys = Some y -> y ∈ ys /\ m !! y = None.
Proof.
  induction ys as [|z ys IH]; cbn [first_missing]; [discriminate|].
  destruct (m !! z) as [v|] eqn:Hz.
  - intros H. destruct (IH H) as [Hin Hm]. split; [now right | exact Hm].
  - intros [= <-]. split; [left | exact Hz].
Qed.

Lemma first_missing_in_range (recs : list record) :
  first_missing zero_table (recs.*2) = None <->
  Forall (fun r : record => in_range (r.2)) recs.
Proof.
  rewrite first_missing_None, Forall_fmap. apply Forall_iff. intros r. cbn.
  rewrite fill_zero_lookup. destruct (decide (in_range (r.2))) as [H|H].
  - split; eauto.
  - split; [intros [w Hw]; discriminate | intros H'; now destruct H].
Qed.

Lemma first_missing_out_of_range (recs : list record) y :
  first_missing zero_table (recs.*2) = Some y -> y ∈ recs.*2 /\ ~ in_range y.
Proof.
  intros H. apply first_missing_Some in H as [Hin Hm]. split; [exact Hin|].
  rewrite fill_zero_lookup in Hm. destruct (decide (in_range y)); [discriminate | assumption].
Qed.

(** ** Loops over the store *)

Lemma insert_alloc (h : list obj) o o' : <[length h := o']> (h ++ [o]) = h ++ [o'].
Proof.
  replace (length h) with (length h + 0)%nat at 1 by lia.
  now rewrite insert_app_r.
Qed.

Lemma for_each_setitem f keys d s df m :
  heap s !! d = Some (ODict df m) ->
  for_each keys (fun k => let* v := ret (f k) in setitem d k v) s =
  Ok (tt, set_heap s (<[d := ODict df (fill f keys m)]> (heap s))).
Proof.
  revert s m. induction keys as [|k keys IH]; intros s m Hd.
  - cbn. unfold ret. now rewrite set_heap_insert_id.
  - cbn [for_each]. erewrite bind_Ok.
    2:{ erewrite bind_Ok by reflexivity. eapply setitem_Ok; exact Hd. }
    erewrite IH by (cbn; eapply lookup_insert_heap; exact Hd).
    cbn. now rewrite list_insert_insert_eq.
Qed.

Lemma dict_comp_pure f keys s :
  dict_comp keys (fun k => ret (f k)) s =
  Ok (length (heap s), set_heap s (heap s ++ [ODict None (fill f keys ∅)])).
Proof.
  unfold dict_comp. erewrite bind_Ok by apply alloc_Ok.
  erewrite bind_Ok by (apply for_each_setitem; cbn; apply lookup_alloc).
  cbn. unfold ret. now rewrite insert_alloc.
Qed.

Lemma dict_literal_single k v s :
  dict_literal [(k, v)] s =
  Ok (length (heap s), set_heap s (heap s ++ [ODict None {[k := v]}])).
Proof.
  unfold dict_literal. erewrite bind_Ok by apply alloc_Ok.
  cbn [for_each]. erewrite bind_Ok.
  2:{ erewrite bind_Ok by (apply setitem_Ok; cbn; apply lookup_alloc). reflexivity. }
  cbn. unfold ret. now rewrite insert_alloc.
Qed.

(** The single loop of [generateDictEfficientFor]. *)
Lemma for_each_iadd_Ok (xs : list record) d s df m :
  heap s !! d = Some (ODict df m) ->
  Forall (fun r : record => is_Some (m !! r.2)) xs ->
  for_each xs (fun jy => iadd d (jy.2) 1) s =
  Ok (tt, set_heap s (<[d := ODict df (tally (xs.*2) m)]> (heap s))).
Proof.
  revert s m. induction xs as [|x xs IH]; intros s m Hd Hxs.
  - cbn. unfold ret. now rewrite set_heap_insert_id.
  - apply Forall_cons in Hxs as [[v Hv] Hxs].
    cbn [for_each]. erewrite bind_Ok by (eapply iadd_present; eassumption).
    erewrite IH.
    + cbn. rewrite list_insert_insert_eq. now rewrite Hv.
    + cbn. eapply lookup_insert_heap; exact Hd.
    + eapply Forall_impl; [exact Hxs|]. intros r Hr. cbn in Hr |- *.
      destruct (decide (x.2 = r.2)) as [->|Hne].
      * rewrite lookup_insert_eq. eauto.
      * now rewrite lookup_insert_ne.
Qed.

(** With a year that is no key of the [dict], the loop stops at the
    first such record with [KeyError]. *)
Lemma for_each_iadd_KeyError (xs : list record) d s m y :
  heap s !! d = Some (ODict None m) ->
  first_missing m (xs.*2) = Some y ->
  for_each xs (fun jy => iadd d (jy.2) 1) s = Raise (KeyError y).
Proof.
  revert s m. induction xs as [|x xs IH]; intros s m Hd Hy; [discriminate|].
  cbn [fmap list_fmap first_missing] in Hy.
  destruct (m !! x.2) as [v|] eqn:Hx.
  - cbn [for_each]. erewrite bind_Ok by (eapply iadd_present; eassumption).
    apply IH with (m := <[x.2 := v + 1]> m).
    + cbn. eapply lookup_insert_heap; exact Hd.
    + rewrite first_missing_insert by eauto. exact Hy.
  - injection Hy as <-. cbn [for_each]. apply bind_Raise.
    now apply iadd_missing with (m := m).
Qed.

(** The inner loop of [generateDictInefficient] for one [year]. *)
Lemma for_each_match_year (xs : list record) year d s df m v :
  heap s !! d = Some (ODict df m) -> m !! year = Some v ->
  for_each xs (fun pair =>
    if decide (year = int (pair.2)) then iadd d year 1 else ret tt) s =
  Ok (tt, set_heap s (<[d := ODict df (<[year := v + list_count (xs.*2) year]> m)]> (heap s))).
Proof.
  revert s m v. induction xs as [|x xs IH]; intros s m v Hd Hv.
  - cbn. unfold ret. rewrite Z.add_0_r, (insert_id m) by exact Hv.
    now rewrite set_heap_insert_id.
  - cbn [for_each fmap list_fmap list_count]. unfold int.
    destruct (decide (year = x.2)) as [E|E].
    + rewrite decide_True by (now symmetry).
      erewrite bind_Ok by (eapply iadd_present; eassumption).
      erewrite IH.
      * cbn. rewrite list_insert_insert_eq, insert_insert_eq.
        now replace (v + 1 + list_count (xs.*2) year) with (v + (1 + list_count (xs.*2) year)) by lia.
      * cbn. eapply lookup_insert_heap; exact Hd.
      * apply lookup_insert_eq.
    + rewrite decide_False by (intros E'; now apply E).
      erewrite bind_Ok by reflexivity. erewrite IH by eassumption.
      reflexivity.
Qed.

(** The nested loops of [generateDictInefficient]. *)
Lemma for_each_years (years : list Z) (xs : list record) j d s m :
  heap s !! d = Some (ODict (Some 0) m) -> heap s !! j = Some (OList xs) ->
  for_each years (fun year =>
    getitem d year ;;
    for_in j (fun pair =>
      if decide (year = int (pair.2)) then iadd d year 1 else ret tt)) s =
  Ok (tt, set_heap s (<[d := ODict (Some 0) (scan (xs.*2) years m)]> (heap s))).
Proof.
  intros Hd Hj. assert (Hne : d <> j) by (intros ->; congruence).
  revert s m Hd Hj. induction years as [|y years IH]; intros s m Hd Hj.
  - cbn. unfold ret. now rewrite set_heap_insert_id.
  - cbn [for_each scan foldl].
    destruct (m !! y) as [v|] eqn:Hy.
    + erewrite bind_Ok.
      2:{ erewrite bind_Ok by (eapply getitem_present; eassumption).
          unfold for_in. erewrite bind_Ok by (apply iter_items_list; exact Hj).
          eapply for_each_match_year; eassumption. }
      erewrite IH.
      * cbn. now rewrite list_insert_insert_eq.
      * cbn. eapply lookup_insert_heap; exact Hd.
      * cbn. now rewrite list_lookup_insert_ne.
    + erewrite bind_Ok.
      2:{ erewrite bind_Ok by (eapply getitem_default; eassumption).
          unfold for_in. erewrite bind_Ok.
          2:{ apply iter_items_list. cbn. rewrite list_lookup_insert_ne by exact Hne. exact Hj. }
          eapply for_each_match_year.
          - cbn. eapply lookup_insert_heap; exact Hd.
          - apply lookup_insert_eq. }
      cbn [heap set_heap]. rewrite list_insert_insert_eq, insert_insert_eq.
      rewrite (IH _ (<[y := 0 + list_count (xs.*2) y]> m)).
      * cbn. now rewrite list_insert_insert_eq.
      * cbn. eapply lookup_insert_heap; exact Hd.
      * cbn. now rewrite list_lookup_insert_ne.
Qed.

(** One call of [getUpdateValue]: a fresh one-entry dictionary. *)
Lemma getUpdateValue_Ok (x : record) d s df m v :
  heap s !! d = Some (ODict df m) -> m !! x.2 = Some v ->
  getUpdateValue x d s =
  Ok (length (heap s), set_heap s (heap s ++ [ODict None {[x.2 := v + 1]}])).
Proof.
  intros Hd Hv. unfold getUpdateValue.
  erewrite bind_Ok by (eapply getitem_present; eassumption).
  erewrite bind_Ok by apply dict_literal_single.
  reflexivity.
Qed.

Lemma getUpdateValue_KeyError (x : record) d s m :
  heap s !! d = Some (ODict None m) -> m !! x.2 = None ->
  getUpdateValue x d s = Raise (KeyError (x.2)).
Proof.
  intros Hd Hv. unfold getUpdateValue. apply bind_Raise.
  now apply getitem_missing with (m := m).
Qed.

(** One step of the comprehension of [generateDictEfficient2]. *)
Lemma update_step (x : record) d s df m v :
  heap s !! d = Some (ODict df m) -> m !! x.2 = Some v ->
  (let* u := getUpdateValue x d in dict_update d u) s =
  Ok (tt, set_heap s (<[d := ODict df (<[x.2 := v + 1]> m)]> (heap s)
                        ++ [ODict None {[x.2 := v + 1]}])).
Proof.
  intros Hd Hv. erewrite bind_Ok by (eapply getUpdateValue_Ok; eassumption).
  unfold dict_update. cbn [heap set_heap].
  rewrite (lookup_app_l_Some _ _ _ _ Hd), lookup_alloc.
  rewrite insert_app_l by (now apply lookup_lt_Some in Hd).
  now rewrite <- insert_union_singleton_l.
Qed.

Lemma list_comp_update_Ok (xs : list record) d s df m :
  heap s !! d = Some (ODict df m) ->
  Forall (fun r : record => is_Some (m !! r.2)) xs ->
  exists nones temps,
    list_comp xs (fun x => let* u := getUpdateValue x d in dict_update d u) s =
    Ok (nones, set_heap s (<[d := ODict df (tally (xs.*2) m)]> (heap s) ++ temps)).
Proof.
  revert s m. induction xs as [|x xs IH]; intros s m Hd Hxs.
  - exists [], []. cbn. unfold ret. rewrite app_nil_r. now rewrite set_heap_insert_id.
  - apply Forall_cons in Hxs as [[v Hv] Hxs].
    pose proof (lookup_lt_Some _ _ _ Hd) as Hlt.
    destruct (IH (set_heap s (<[d := ODict df (<[x.2 := v + 1]> m)]> (heap s)
                                ++ [ODict None {[x.2 := v + 1]}]))
                 (<[x.2 := v + 1]> m)) as (nones & temps & Hrun).
    + cbn. apply lookup_app_l_Some. eapply lookup_insert_heap; exact Hd.
    + eapply Forall_impl; [exact Hxs|]. intros r Hr. cbn in Hr |- *.
      destruct (decide (x.2 = r.2)) as [->|Hne].
      * rewrite lookup_insert_eq. eauto.
      * now rewrite lookup_insert_ne.
    + exists (tt :: nones), (ODict None {[x.2 := v + 1]} :: temps).
      cbn [list_comp]. erewrite bind_Ok by (eapply update_step; eassumption).
      erewrite bind_Ok by exact Hrun.
      unfold ret. cbn [heap set_heap fmap list_fmap tally foldl]. rewrite Hv. cbn [default].
      rewrite insert_app_l by (rewrite length_insert; exact Hlt).
      rewrite list_insert_insert_eq. now rewrite <- app_assoc.
Qed.

Lemma list_comp_update_KeyError (xs : list record) d s m y :
  heap s !! d = Some (ODict None m) ->
  first_missing m (xs.*2) = Some y ->
  list_comp xs (fun x => let* u := getUpdateValue x d in dict_update d u) s =
  Raise (KeyError y).
Proof.
  revert s m. induction xs as [|x xs IH]; intros s m Hd Hy; [discriminate|].
  cbn [fmap list_fmap first_missing] in Hy.
  destruct (m !! x.2) as [v|] eqn:Hx.
  - cbn [list_comp]. erewrite bind_Ok by (eapply update_step; eassumption).
    apply bind_Raise. apply IH with (m := <[x.2 := v + 1]> m).
    + cbn. apply lookup_app_l_Some. eapply lookup_insert_heap; exact Hd.
    + rewrite first_missing_insert by eauto. exact Hy.
  - injection Hy as <-. cbn [list_comp]. apply bind_Raise. apply bind_Raise.
    now apply getUpdateValue_KeyError with (m := m).
Qed.

(** ** The four aggregators on a data source *)

Lemma frame_insert_app s s' d o ext :
  frame s s' -> (length (heap s) <= d)%nat ->
  frame s (set_heap s' (<[d := o]> (heap s') ++ ext)).
Proof.
  intros Hf Hd. eapply frame_trans; [eapply frame_insert_fresh; eassumption|].
  apply (frame_app (set_heap s' (<[d := o]> (heap s')))).
Qed.

Lemma holds_records_not_dict s l recs df m : holds_records s l recs -> heap s !! l <> Some (ODict df m).
Proof. intros [H|H]; rewrite H; discriminate. Qed.

Lemma holds_records_app s l recs ext :
  holds_records s l recs -> holds_records (set_heap s (heap s ++ ext)) l recs.
Proof. intros [H|H]; [left|right]; cbn; now apply lookup_app_l_Some. Qed.

Lemma all_in_range_keys (recs : list record) :
  Forall (fun r : record => in_range (r.2)) recs ->
  Forall (fun r : record => is_Some (zero_table !! r.2)) recs.
Proof.
  intros H. eapply Forall_impl; [exact H|]. intros r Hr. cbn.
  rewrite fill_zero_lookup, decide_True by exact Hr. eauto.
Qed.

Lemma generateDictInefficient_run src s l s1 recs :
  source_yields src (set_heap s (heap s ++ [ODict (Some 0) ∅])) l s1 recs ->
  exists s', generateDictInefficient_with src s = Ok (length (heap s), s') /\
             returns_table s (length (heap s)) s' recs.
Proof.
  intros (Hsrc & Hf1 & Hl).
  set (d := length (heap s)).
  assert (Hd1 : heap s1 !! d = Some (ODict (Some 0) ∅)).
  { apply Hf1; [cbn; apply lookup_alloc | discriminate]. }
  destruct (iter_items_holds _ _ _ Hl) as (s2 & Hit & Hf2 & Hlen & Hsame).
  assert (Hdl : d <> l).
  { intros E. apply (holds_records_not_dict _ _ _ (Some 0) ∅ Hl). now rewrite <- E. }
  assert (Hd2 : heap s2 !! d = Some (ODict (Some 0) ∅)) by (now rewrite Hsame).
  eexists. split.
  - unfold generateDictInefficient_with.
    erewrite bind_Ok by apply alloc_Ok.
    erewrite bind_Ok by exact Hsrc.
    erewrite bind_Ok.
    2:{ unfold list_. erewrite bind_Ok by exact Hit. apply alloc_Ok. }
    erewrite bind_Ok.
    2:{ apply for_each_years with (xs := recs) (m := ∅); cbn.
        - now apply lookup_app_l_Some.
        - apply lookup_alloc. }
    reflexivity.
  - split; [|split; [reflexivity|]].
    + cbn [set_heap heap]. apply frame_insert_fresh; [|reflexivity].
      eapply frame_trans; [apply (frame_app s [ODict (Some 0) ∅])|].
      eapply frame_trans; [exact Hf1|].
      eapply frame_trans; [exact Hf2|]. apply frame_app.
    + exists (Some 0). cbn. rewrite scan_year_table.
      eapply lookup_insert_heap. apply lookup_app_l_Some. exact Hd2.
Qed.

Lemma fmap_self {A} (l : list A) : (fun i => i) <$> l = l.
Proof. apply list_fmap_id. Qed.

Lemma generateDictEfficient1_run src s l s1 recs :
  source_yields src s l s1 recs ->
  exists d s', generateDictEfficient1_with src s = Ok (d, s') /\
               returns_table s d s' recs.
Proof.
  intros (Hsrc & Hf1 & Hl).
  destruct (iter_items_holds _ _ _ Hl) as (s2 & Hit & Hf2 & Hlen & Hsame).
  eexists _, _. split.
  - unfold generateDictEfficient1_with.
    erewrite bind_Ok by exact Hsrc.
    erewrite bind_Ok.
    2:{ unfold list_comp_in. erewrite bind_Ok by exact Hit. apply list_comp_pure. }
    erewrite bind_Ok by apply list_comp_pure.
    erewrite bind_Ok by apply dict_comp_pure.
    reflexivity.
  - split; [|split].
    + eapply frame_trans; [exact Hf1|]. eapply frame_trans; [exact Hf2|]. apply frame_app.
    + destruct Hf1 as [L1 _]. lia.
    + exists None. cbn. rewrite fmap_self, fill_year_table. apply lookup_alloc.
Qed.

Lemma generateDictEfficient2_run src s l s1 recs :
  source_yields src
    (set_heap s (heap s ++ [ODict None zero_table]))
    l s1 recs ->
  Forall (fun r : record => in_range (r.2)) recs ->
  exists s', generateDictEfficient2_with src s = Ok (length (heap s), s') /\
             returns_table s (length (heap s)) s' recs.
Proof.
  intros (Hsrc & Hf1 & Hl) Hin.
  set (d := length (heap s)). set (m0 := zero_table) in *.
  assert (Hd1 : heap s1 !! d = Some (ODict None m0)).
  { apply Hf1; [cbn; apply lookup_alloc | discriminate]. }
  destruct (iter_items_holds _ _ _ Hl) as (s2 & Hit & Hf2 & Hlen & Hsame).
  assert (Hdl : d <> l).
  { intros E. apply (holds_records_not_dict _ _ _ None m0 Hl). now rewrite <- E. }
  assert (Hd2 : heap s2 !! d = Some (ODict None m0)) by (now rewrite Hsame).
  destruct (list_comp_update_Ok recs d s2 None m0 Hd2 (all_in_range_keys _ Hin))
    as (nones & temps & Hloop).
  eexists. split.
  - unfold generateDictEfficient2_with.
    erewrite bind_Ok by apply dict_comp_pure.
    erewrite bind_Ok by exact Hsrc.
    erewrite bind_Ok.
    2:{ unfold list_comp_in. erewrite bind_Ok by exact Hit. exact Hloop. }
    reflexivity.
  - split; [|split; [reflexivity|]].
    + apply frame_insert_app; [|reflexivity].
      eapply frame_trans; [apply (frame_app s [ODict None m0])|].
      eapply frame_trans; [exact Hf1|exact Hf2].
    + exists None. cbn. unfold m0. rewrite tally_year_table by exact Hin.
      apply lookup_app_l_Some. eapply lookup_insert_heap. exact Hd2.
Qed.

Lemma generateDictEfficient2_KeyError src s l s1 recs y :
  source_yields src
    (set_heap s (heap s ++ [ODict None zero_table]))
    l s1 recs ->
  first_missing zero_table (recs.*2) = Some y ->
  generateDictEfficient2_with src s = Raise (KeyError y).
Proof.
  intros (Hsrc & Hf1 & Hl) Hy.
  set (d := length (heap s)). set (m0 := zero_table) in *.
  assert (Hd1 : heap s1 !! d = Some (ODict None m0)).
  { apply Hf1; [cbn; apply lookup_alloc | discriminate]. }
  destruct (iter_items_holds _ _ _ Hl) as (s2 & Hit & Hf2 & Hlen & Hsame).
  assert (Hdl : d <> l).
  { intros E. apply (holds_records_not_dict _ _ _ None m0 Hl). now rewrite <- E. }
  assert (Hd2 : heap s2 !! d = Some (ODict None m0)) by (now rewrite Hsame).
  pose proof (list_comp_update_KeyError recs d s2 m0 y Hd2 Hy) as Hloop.
  unfold generateDictEfficient2_with.
  erewrite bind_Ok by apply dict_comp_pure.
  erewrite bind_Ok by exact Hsrc.
  apply bind_Raise. unfold list_comp_in. erewrite bind_Ok by exact Hit. exact Hloop.
Qed.

Lemma generateDictEfficientFor_run src s l s1 recs :
  source_yields src s l s1 recs ->
  Forall (fun r : record => in_range (r.2)) recs ->
  exists d s', generateDictEfficientFor_with src s = Ok (d, s') /\
               returns_table s d s' recs.
Proof.
  intros (Hsrc & Hf1 & Hl) Hin.
  set (m0 := zero_table).
  set (s2 := set_heap s1 (heap s1 ++ [ODict None m0])).
  assert (Hl2 : holds_records s2 l recs) by (now apply holds_records_app).
  destruct (iter_items_holds _ _ _ Hl2) as (s3 & Hit & Hf3 & Hlen & Hsame).
  assert (Hdl : length (heap s1) <> l).
  { intros E. apply (holds_records_not_dict _ _ _ None m0 Hl2).
    rewrite <- E. cbn. apply lookup_alloc. }
  assert (Hd3 : heap s3 !! length (heap s1) = Some (ODict None m0)).
  { rewrite Hsame by exact Hdl. cbn. apply lookup_alloc. }
  eexists _, _. split.
  - unfold generateDictEfficientFor_with.
    erewrite bind_Ok by exact Hsrc.
    erewrite bind_Ok by apply dict_comp_pure.
    erewrite bind_Ok.
    2:{ unfold for_in. erewrite bind_Ok by exact Hit.
        apply for_each_iadd_Ok with (m := m0); [exact Hd3 | now apply all_in_range_keys]. }
    reflexivity.
  - split; [|split].
    + apply frame_insert_fresh; [|destruct Hf1; lia].
      eapply frame_trans; [exact Hf1|].
      eapply frame_trans; [apply (frame_app s1 [ODict None m0])|exact Hf3].
    + destruct Hf1 as [L1 _]. lia.
    + exists None. cbn. unfold m0. rewrite tally_year_table by exact Hin.
      eapply lookup_insert_heap. exact Hd3.
Qed.

Lemma generateDictEfficientFor_KeyError src s l s1 recs y :
  source_yields src s l s1 recs ->
  first_missing zero_table (recs.*2) = Some y ->
  generateDictEfficientFor_with src s = Raise (KeyError y).
Proof.
  intros (Hsrc & Hf1 & Hl) Hy.
  set (m0 := zero_table).
  set (s2 := set_heap s1 (heap s1 ++ [ODict None m0])).
  assert (Hl2 : holds_records s2 l recs) by (now apply holds_records_app).
  destruct (iter_items_holds _ _ _ Hl2) as (s3 & Hit & Hf3 & Hlen & Hsame).
  assert (Hdl : length (heap s1) <> l).
  { intros E. apply (holds_records_not_dict _ _ _ None m0 Hl2).
    rewrite <- E. cbn. apply lookup_alloc. }
  assert (Hd3 : heap s3 !! length (heap s1) = Some (ODict None m0)).
  { rewrite Hsame by exact Hdl. cbn. apply lookup_alloc. }
  pose proof (for_each_iadd_KeyError recs _ s3 m0 y Hd3 Hy) as Hloop.
  unfold generateDictEfficientFor_with.
  erewrite bind_Ok by exact Hsrc.
  erewrite bind_Ok by apply dict_comp_pure.
  apply bind_Raise. unfold for_in. erewrite bind_Ok by exact Hit. exact Hloop.
Qed.

(** ** The sum of the values *)

Lemma sum_values_insert_fresh m k v :
  m !! k = None -> sum_values (<[k := v]> m) = v + sum_values m.
Proof.
  intros Hk. unfold sum_values. apply map_fold_insert_L; [|exact Hk].
  intros; lia.
Qed.

Lemma sum_values_insert_present m k v w :
  m !! k = Some v -> sum_values (<[k := w]> m) = sum_values m - v + w.
Proof.
  intros Hk.
  rewrite <- (insert_delete_eq m k w).
  rewrite <- (insert_id m k v Hk) at 2. rewrite <- (insert_delete_eq m k v).
  rewrite !sum_values_insert_fresh by apply lookup_delete_eq. lia.
Qed.

Lemma records_with_year_cons (r : record) recs Y :
  records_with_year Y (r :: recs) =
  (if decide (r.2 = Y) then 1 else 0) + records_with_year Y recs.
Proof.
  unfold records_with_year. rewrite filter_cons.
  destruct (decide (r.2 = Y)); cbn [length]; lia.
Qed.

Lemma records_in_range_cons (r : record) recs :
  records_in_range (r :: recs) =
  (if decide (in_range (r.2)) then 1 else 0) + records_in_range recs.
Proof.
  unfold records_in_range. rewrite filter_cons.
  destruct (decide (in_range (r.2))); cbn [length]; lia.
Qed.

Lemma year_table_cons (r : record) recs :
  year_table (r :: recs) =
  if decide (in_range (r.2))
  then <[r.2 := records_with_year (r.2) recs + 1]> (year_table recs)
  else year_table recs.
Proof.
  apply map_eq. intros Y. rewrite year_table_lookup, records_with_year_cons.
  destruct (decide (in_range (r.2))) as [Hr|Hr].
  - destruct (decide (r.2 = Y)) as [E|Hne].
    + rewrite <- E, lookup_insert_eq, decide_True by exact Hr. f_equal. lia.
    + rewrite lookup_insert_ne, year_table_lookup by exact Hne.
      destruct (decide (in_range Y)); [f_equal; lia | reflexivity].
  - rewrite year_table_lookup. destruct (decide (in_range Y)) as [HY|HY]; [|reflexivity].
    rewrite decide_False; [f_equal; lia | intros E; apply Hr; now rewrite E].
Qed.

Lemma sum_values_year_table recs : sum_values (year_table recs) = records_in_range recs.
Proof.
  induction recs as [|r recs IH].
  - vm_compute. reflexivity.
  - rewrite year_table_cons, records_in_range_cons.
    destruct (decide (in_range (r.2))) as [Hr|Hr]; [|lia].
    rewrite (sum_values_insert_present _ _ (records_with_year (r.2) recs)).
    + lia.
    + rewrite year_table_lookup. now rewrite decide_True by exact Hr.
Qed.

Lemma records_in_range_le recs : records_in_range recs <= Z.of_nat (length recs).
Proof.
  unfold records_in_range. pose proof (length_filter (fun r : record => in_range (r.2)) recs). lia.
Qed.

Lemma records_in_range_all recs :
  Forall (fun r : record => in_range (r.2)) recs ->
  records_in_range recs = Z.of_nat (length recs).
Proof.
  induction 1 as [|r recs Hr _ IH]; [reflexivity|].
  rewrite records_in_range_cons, decide_True by exact Hr. cbn [length]. lia.
Qed.

Lemma records_in_range_lt recs :
  Exists (fun r : record => ~ in_range (r.2)) recs ->
  records_in_range recs < Z.of_nat (length recs).
Proof.
  induction 1 as [r recs Hr|r recs _ IH]; rewrite records_in_range_cons; cbn [length].
  - rewrite decide_False by exact Hr. pose proof (records_in_range_le recs). lia.
  - destruct (decide (in_range (r.2))); lia.
Qed.

Lemma year_table_keys recs Y : is_Some (year_table recs !! Y) <-> in_range Y.
Proof.
  rewrite year_table_lookup. destruct (decide (in_range Y)) as [H|H].
  - split; eauto.
  - split; [intros [w Hw]; discriminate | intros H'; now destruct H].
Qed.

Lemma year_table_size recs : size (year_table recs) = 19%nat.
Proof.
  rewrite <- size_dom.
  replace (dom (year_table recs)) with (list_to_set (seqZ 2000 19) : gset Z).
  - rewrite size_list_to_set by apply NoDup_seqZ. reflexivity.
  - apply set_eq. intros Y. rewrite elem_of_list_to_set, elem_of_dom, year_table_keys.
    apply in_range_seqZ.
Qed.

Lemma year_table_nonneg recs Y c : year_table recs !! Y = Some c -> 0 <= c.
Proof.
  rewrite year_table_lookup. destruct (decide (in_range Y)); [|discriminate].
  intros [= <-]. unfold records_with_year. lia.
Qed.

Lemma year_table_zero recs Y :
  in_range Y -> Forall (fun r : record => r.2 <> Y) recs -> year_table recs !! Y = Some 0.
Proof.
  intros HY Hno. rewrite year_table_lookup, decide_True by exact HY. f_equal.
  induction Hno as [|r recs Hr _ IH]; [reflexivity|].
  rewrite records_with_year_cons, decide_False by exact Hr. lia.
Qed.

Lemma year_table_years recs1 recs2 :
  recs1.*2 = recs2.*2 -> year_table recs1 = year_table recs2.
Proof.
  intros E. apply map_eq. intros Y. rewrite !year_table_lookup.
  destruct (decide (in_range Y)); [|reflexivity].
  now rewrite <- !list_count_records, E.
Qed.

(** ** The data generator *)

Lemma random_choice_letter s :
  exists c s', random_choice (chars "ABCD") s = Ok (c, s') /\
               heap s' = heap s /\ c ∈ chars "ABCD".
Proof.
  unfold random_choice.
  destruct (lookup_lt_is_Some_2 (chars "ABCD") (py_random s 0%nat mod 4)%nat) as [c Hc].
  { change (length (chars "ABCD")) with 4%nat. apply Nat.mod_upper_bound. lia. }
  exists c. eexists. split; [|split].
  - erewrite bind_Ok by reflexivity.
    change (length (chars "ABCD")) with 4%nat. cbn [py_random]. rewrite Hc. reflexivity.
  - reflexivity.
  - eapply list_elem_of_lookup_2. exact Hc.
Qed.

(** A comprehension whose element expression leaves the store alone and
    establishes [P] yields as many elements as it consumes, all in [P]. *)
Lemma list_comp_inv {A B} (P : B -> Prop) (f : A -> M B) (xs : list A) s :
  (forall x s0, exists y s1, f x s0 = Ok (y, s1) /\ heap s1 = heap s0 /\ P y) ->
  exists ys s', list_comp xs f s = Ok (ys, s') /\ heap s' = heap s /\
                length ys = length xs /\ Forall P ys.
Proof.
  intros Hf. revert s. induction xs as [|x xs IH]; intros s.
  - exists [], s. repeat split. constructor.
  - destruct (Hf x s) as (y & s1 & Hy & Hh1 & HP).
    destruct (IH s1) as (ys & s2 & Hys & Hh2 & Hlen & HF).
    exists (y :: ys), s2. split; [|split; [|split]].
    + cbn [list_comp]. erewrite bind_Ok by exact Hy. erewrite bind_Ok by exact Hys.
      reflexivity.
    + congruence.
    + cbn [length]. now rewrite Hlen.
    + now constructor.
Qed.

Lemma join_letters (letters : list string) :
  length letters = 3%nat -> Forall (fun c => c ∈ chars "ABCD") letters ->
  label_ok (join letters).
Proof.
  intros Hlen HF.
  destruct letters as [|a [|b [|c [|? ?]]]]; try discriminate.
  apply Forall_cons in HF as [Ha HF]. apply Forall_cons in HF as [Hb HF].
  apply Forall_cons in HF as [Hc _].
  cbn [chars] in Ha, Hb, Hc.
  rewrite !elem_of_cons, elem_of_nil in Ha, Hb, Hc.
  destruct Ha as [->|[->|[->|[->|[]]]]];
    destruct Hb as [->|[->|[->|[->|[]]]]];
    destruct Hc as [->|[->|[->|[->|[]]]]];
    (split; [reflexivity | cbn; repeat (apply Forall_cons; split; [set_solver|]); constructor]).
Qed.

Lemma generateJournalNames_Ok n s :
  exists names s', generateJournalNames n s = Ok (names, s') /\ heap s' = heap s /\
                   length names = n /\ Forall label_ok names.
Proof.
  destruct (list_comp_inv label_ok
              (fun _ : nat =>
                 let* letters := list_comp (range_n 3) (fun _ => random_choice (chars "ABCD")) in
                 ret (join letters)) (range_n n) s) as (names & s' & Hrun & Hh & Hlen & HF).
  - intros _ s0.
    destruct (list_comp_inv (fun c => c ∈ chars "ABCD")
                (fun _ : nat => random_choice (chars "ABCD")) (range_n 3) s0)
      as (letters & s1 & Hl & Hh1 & Hlen1 & HF1).
    { intros _ s2. apply random_choice_letter. }
    exists (join letters), s1. split; [|split].
    + erewrite bind_Ok by exact Hl. reflexivity.
    + exact Hh1.
    + apply join_letters; assumption.
  - exists names, s'. split; [|split; [|split]]; try assumption.
    + unfold generateJournalNames. erewrite bind_Ok by exact Hrun. reflexivity.
    + rewrite Hlen. unfold range_n. apply length_seq.
Qed.

Lemma generateYears_Ok n s :
  exists years s', generateYears n s = Ok (years, s') /\ heap s' = heap s /\
                   length years = n /\ Forall (fun y => 2000 <= y < 2018) years.
Proof.
  assert (H : exists years s', np_random_choice (range 2000 2018) n s = Ok (years, s') /\
                heap s' = heap s /\ length years = n /\
                Forall (fun y => 2000 <= y < 2018) years).
  { revert s. induction n as [|n IH]; intros s.
    - exists [], s. repeat split. constructor.
    - cbn [np_random_choice].
      set (s1 := State (heap s) (py_random s) (fun i => np_random s (S i))).
      destruct (IH s1) as (ys & s2 & Hys & Hh & Hlen & HF).
      assert (Hlt : (np_random s 0%nat mod 18 < 18)%nat) by (apply Nat.mod_upper_bound; lia).
      exists (2000 + Z.of_nat (np_random s 0%nat mod 18) :: ys), s2.
      split; [|split; [|split]].
      + erewrite bind_Ok by reflexivity.
        replace (length (range 2000 2018)) with 18%nat by reflexivity.
        unfold range. rewrite lookup_seqZ_lt by lia.
        erewrite bind_Ok by exact Hys. reflexivity.
      + exact Hh.
      + cbn [length]. now rewrite Hlen.
      + constructor; [lia | exact HF]. }
  destruct H as (years & s' & Hrun & Hrest). exists years, s'. split; [|exact Hrest].
  unfold generateYears. erewrite bind_Ok by exact Hrun. reflexivity.
Qed.

Lemma zip_records (names : list string) (years : list Z) (P : string -> Prop) (Q : Z -> Prop) :
  length names = length years -> Forall P names -> Forall Q years ->
  length (zip names years) = length names /\
  Forall (fun r : record => P (r.1) /\ Q (r.2)) (zip names years).
Proof.
  revert years. induction names as [|a names IH]; intros [|y years] Hlen HP HQ;
    try discriminate; cbn.
  - split; [reflexivity | constructor].
  - apply Forall_cons in HP as [Ha HP]. apply Forall_cons in HQ as [Hy HQ].
    destruct (IH years) as [IH1 IH2]; [now injection Hlen | assumption..|].
    split; [now rewrite IH1 | constructor; [now split | exact IH2]].
Qed.

(** [generateData(n)] returns a fresh zip object of [n] well-formed
    records, whatever the draws. *)
Lemma generateData_Ok n s :
  exists recs s',
    generateData n s = Ok (length (heap s), s') /\
    heap s' = heap s ++ [OZip recs] /\
    length recs = n /\
    Forall (fun r : record => label_ok (r.1) /\ 2000 <= r.2 < 2018) recs.
Proof.
  destruct (generateJournalNames_Ok n s) as (names & s1 & Hn & Hh1 & Hl1 & HF1).
  destruct (generateYears_Ok n s1) as (years & s2 & Hy & Hh2 & Hl2 & HF2).
  destruct (zip_records names years label_ok (fun y => 2000 <= y < 2018)) as [Hlen HF];
    [congruence | assumption..|].
  exists (zip names years), (set_heap s2 (heap s2 ++ [OZip (zip names years)])).
  split; [|split; [|split]].
  - unfold generateData. erewrite bind_Ok by exact Hn. erewrite bind_Ok by exact Hy.
    rewrite alloc_Ok. now rewrite Hh2, Hh1.
  - cbn. now rewrite Hh2, Hh1.
  - etransitivity; [exact Hlen | exact Hl1].
  - exact HF.
Qed.

(** ** Data sources *)

Lemma given_yields recs s :
  source_yields (given recs) s (length (heap s)) (set_heap s (heap s ++ [OList recs])) recs.
Proof.
  split; [reflexivity|]. split; [apply frame_app|]. left. cbn. apply lookup_alloc.
Qed.


Lemma generateData_yields n s :
  exists recs s',
    source_yields (generateData n) s (length (heap s)) s' recs /\
    length recs = n /\
    Forall (fun r : record => label_ok (r.1) /\ 2000 <= r.2 < 2018) recs.
Proof.
  destruct (generateData_Ok n s) as (recs & s' & Hrun & Hh & Hlen & HF).
  exists recs, s'. split; [|split; assumption].
  split; [exact Hrun|]. split.
  - split; [rewrite Hh, length_app; lia|].
    intros i o Hi _. rewrite Hh. now apply lookup_app_l_Some.
  - right. rewrite Hh. apply lookup_alloc.
Qed.

(** ** Every variant on every source *)

Lemma generateDict_with_returns v src s l s1 recs :
  source_yields src (pre_state v s) l s1 recs -> returns_on v recs ->
  exists d s', generateDict_with v src s = Ok (d, s') /\ returns_table s d s' recs.
Proof.
  intros Hsrc Hret. destruct v; cbn [generateDict_with pre_state] in *.
  - destruct (generateDictInefficient_run _ _ _ _ _ Hsrc) as (s' & H1 & H2). eauto.
  - now apply generateDictEfficient1_run with (l := l) (s1 := s1).
  - destruct Hret as [?|[?|Hin]]; try discriminate.
    destruct (generateDictEfficient2_run _ _ _ _ _ Hsrc Hin) as (s' & H1 & H2). eauto.
  - destruct Hret as [?|[?|Hin]]; try discriminate.
    now apply generateDictEfficientFor_run with (l := l) (s1 := s1).
Qed.

Lemma returned_table_returns s d s' recs :
  returns_table s d s' recs -> returned_table (Ok (d, s')) = Ok (year_table recs).
Proof. intros (_ & _ & df & Hd). cbn. now rewrite Hd. Qed.

Lemma expected_outcome_Ok v recs :
  returns_on v recs -> expected_outcome v recs = Ok (year_table recs).
Proof.
  intros [->|[->|Hin]]; try reflexivity.
  apply first_missing_in_range in Hin. destruct v; cbn; now rewrite ?Hin.
Qed.

Lemma expected_outcome_KeyError v recs :
  v = Efficient2 \/ v = EfficientFor ->
  Exists (fun r : record => ~ in_range (r.2)) recs ->
  exists y, y ∈ recs.*2 /\ ~ in_range y /\ expected_outcome v recs = Raise (KeyError y).
Proof.
  intros Hv Hex.
  destruct (first_missing zero_table (recs.*2)) as [y|] eqn:Hy.
  - exists y. destruct (first_missing_out_of_range _ _ Hy) as [H1 H2].
    split; [exact H1|]. split; [exact H2|].
    destruct Hv as [->| ->]; cbn; now rewrite Hy.
  - apply first_missing_in_range in Hy. apply Exists_exists in Hex as (r & Hr & Hout).
    rewrite Forall_forall in Hy. now destruct (Hout (Hy r Hr)).
Qed.

Lemma generateDict_with_outcome v src s l s1 recs :
  source_yields src (pre_state v s) l s1 recs ->
  returned_table (generateDict_with v src s) = expected_outcome v recs.
Proof.
  intros Hsrc.
  destruct (first_missing zero_table (recs.*2)) as [y|] eqn:Hy.
  - destruct v; cbn [expected_outcome]; rewrite ?Hy.
    + destruct (generateDict_with_returns Inefficient _ _ _ _ _ Hsrc) as (d & s' & H1 & H2);
        [now left|]. rewrite H1. now apply returned_table_returns with (s := s).
    + destruct (generateDict_with_returns Efficient1 _ _ _ _ _ Hsrc) as (d & s' & H1 & H2);
        [right; now left|]. rewrite H1. now apply returned_table_returns with (s := s).
    + cbn [generateDict_with pre_state] in *.
      now rewrite (generateDictEfficient2_KeyError _ _ _ _ _ _ Hsrc Hy).
    + cbn [generateDict_with pre_state] in *.
      now rewrite (generateDictEfficientFor_KeyError _ _ _ _ _ _ Hsrc Hy).
  - assert (Hret : returns_on v recs) by (right; right; now apply first_missing_in_range).
    rewrite (expected_outcome_Ok _ _ Hret).
    destruct (generateDict_with_returns _ _ _ _ _ _ Hsrc Hret) as (d & s' & H1 & H2).
    rewrite H1. now apply returned_table_returns with (s := s).
Qed.


Lemma aggregate_outcome v recs s : aggregate v recs s = expected_outcome v recs.
Proof. unfold aggregate. eapply generateDict_with_outcome, given_yields. Qed.

Lemma aggregate_returns v recs s :
  returns_on v recs -> aggregate v recs s = Ok (year_table recs).
Proof. intros H. rewrite aggregate_outcome. now apply expected_outcome_Ok. Qed.



(** ** The model on concrete inputs *)

Example generateData_sample :
  match generateData 4 (State [] (fun i => i * 7 + 3)%nat (fun i => i * 5 + 1)%nat) with
  | Ok (z, s) => Some (z, heap s)
  | Raise _ => None
  end
  = Some (0%nat, [OZip [("DCB"%string, 2001); ("ADC"%string, 2006);
                        ("BAD"%string, 2011); ("CBA"%string, 2016)]]).
Proof. vm_compute. reflexivity. Qed.

Example inefficient_ignores_1999 :
  aggregate Inefficient [("AAA"%string, 2005); ("BBB"%string, 1999)] empty_state
  = Ok (<[2005 := 1]> zero_table).
Proof. vm_compute. reflexivity. Qed.

Example efficient1_ignores_2019 :
  aggregate Efficient1 [("AAA"%string, 2005); ("BBB"%string, 2019)] empty_state
  = Ok (<[2005 := 1]> zero_table).
Proof. vm_compute. reflexivity. Qed.

Example efficient2_raises_on_1999 :
  aggregate Efficient2 [("AAA"%string, 2005); ("BBB"%string, 1999)] empty_state
  = Raise (KeyError 1999).
Proof. vm_compute. reflexivity. Qed.

Example efficientFor_counts :
  aggregate EfficientFor [("AAA"%string, 2018); ("BBB"%string, 2018)] empty_state
  = Ok (<[2018 := 2]> zero_table).
Proof. vm_compute. reflexivity. Qed.

(** A zip object is used up by the first aggregation: a second one over
    the same object counts nothing.  (A list is not; see C8.) *)
Example zip_is_consumed :
  (let* z := alloc (OZip [("AAA"%string, 2005)]) in
   let* d1 := generateDictEfficientFor_with (ret z) in
   let* d2 := generateDictEfficientFor_with (ret z) in
   fun s => Ok ((table_at s d1, table_at s d2), s)) empty_state
  = Ok ((Some (<[2005 := 1]> zero_table), Some zero_table),
        State [OZip []; ODict None (<[2005 := 1]> zero_table); ODict None zero_table]
              (fun _ => 0%nat) (fun _ => 0%nat)).
Proof. vm_compute. reflexivity. Qed.

(** * The claims *)

(** C1 (as stated, refuted): on the one-record sequence [("AAA", 2019)]
    the variant generateDictEfficient2 returns no Frequency Table at all,
    so it does not return one that holds the count of every year. *)
Lemma year_counts_fail_on_2019 :
  ~ (exists t, aggregate Efficient2 [("AAA"%string, 2019)] empty_state = Ok t /\
               forall Y, 2000 <= Y <= 2018 ->
                 t !! Y = Some (records_with_year Y [("AAA"%string, 2019)])).
Proof. intros (t & H & _). vm_compute in H. discriminate. Qed.

(** C1 (amended): for every finite sequence of records,
    generateDictInefficient and generateDictEfficient1 (on that sequence
    in place of the generated data) return a Frequency Table in which the
    value at every year Y of 2000..2018 is the number of records whose
    year equals Y; generateDictEfficient2 and generateDictEfficientFor do
    so for every sequence whose years all lie in 2000..2018. *)
Theorem year_counts (v : variant) (recs : list record) (s : state) :
  returns_on v recs ->
  exists t, aggregate v recs s = Ok t /\
            forall Y, 2000 <= Y <= 2018 -> t !! Y = Some (records_with_year Y recs).
Proof.
  intros Hret. exists (year_table recs). split; [now apply aggregate_returns|].
  intros Y HY. rewrite year_table_lookup. now rewrite decide_True by exact HY.
Qed.

Lemma year_counts_witness :
  returns_on EfficientFor [("ABC"%string, 2000); ("DDA"%string, 2018)] /\
  exists t, aggregate EfficientFor [("ABC"%string, 2000); ("DDA"%string, 2018)] empty_state = Ok t /\
            forall Y, 2000 <= Y <= 2018 ->
              t !! Y = Some (records_with_year Y [("ABC"%string, 2000); ("DDA"%string, 2018)]).
Proof.
  assert (H : returns_on EfficientFor [("ABC"%string, 2000); ("DDA"%string, 2018)]).
  { right; right. repeat constructor; cbn; lia. }
  split; [exact H | apply (year_counts EfficientFor _ empty_state H)].
Defined.

(** C2: for every sequence of records whose years all lie in 2000..2018,
    the nested-loop aggregation and each single-pass aggregation return
    Frequency Tables that are equal as mappings. *)
Theorem naive_equals_single_pass (v : variant) (recs : list record) (s s' : state) :
  Forall (fun r : record => 2000 <= r.2 <= 2018) recs ->
  exists t, aggregate Inefficient recs s = Ok t /\ aggregate v recs s' = Ok t.
Proof.
  intros Hin. exists (year_table recs).
  split; apply aggregate_returns; [now left | right; right; exact Hin].
Qed.

Lemma naive_equals_single_pass_witness :
  Forall (fun r : record => 2000 <= r.2 <= 2018)
         [("BAD"%string, 2003); ("CAB"%string, 2003); ("DAD"%string, 2017)] /\
  exists t,
    aggregate Inefficient [("BAD"%string, 2003); ("CAB"%string, 2003); ("DAD"%string, 2017)]
      empty_state = Ok t /\
    aggregate Efficient2 [("BAD"%string, 2003); ("CAB"%string, 2003); ("DAD"%string, 2017)]
      empty_state = Ok t.
Proof.
  assert (H : Forall (fun r : record => 2000 <= r.2 <= 2018)
                [("BAD"%string, 2003); ("CAB"%string, 2003); ("DAD"%string, 2017)]).
  { repeat constructor; cbn; lia. }
  split; [exact H | apply (naive_equals_single_pass Efficient2 _ empty_state empty_state H)].
Defined.

(** C3 (as stated, refuted): on [("AAA", 2005); ("BBB", 1999)] the
    variant generateDictEfficientFor raises KeyError 1999 instead of
    completing. *)
Lemma out_of_range_raises_1999 :
  aggregate EfficientFor [("AAA"%string, 2005); ("BBB"%string, 1999)] empty_state
    = Raise (KeyError 1999) /\
  ~ (exists t, aggregate EfficientFor [("AAA"%string, 2005); ("BBB"%string, 1999)] empty_state
               = Ok t /\ sum_values t < 2).
Proof.
  split; [vm_compute; reflexivity|]. intros (t & H & _). vm_compute in H. discriminate.
Qed.

(** C3 (amended): for every sequence containing a record whose year lies
    outside 2000..2018, generateDictInefficient and generateDictEfficient1
    complete without raising, count each record only in the bucket of its
    own year (so the out-of-range record is in no bucket, and no bucket
    exists for its year), and the values sum to strictly less than the
    input length; generateDictEfficient2 and generateDictEfficientFor
    raise KeyError for an out-of-range year of the sequence. *)
Theorem out_of_range_excluded (recs : list record) (s : state) :
  Exists (fun r : record => ~ 2000 <= r.2 <= 2018) recs ->
  (forall v, v = Inefficient \/ v = Efficient1 ->
     exists t, aggregate v recs s = Ok t /\
               (forall Y, 2000 <= Y <= 2018 -> t !! Y = Some (records_with_year Y recs)) /\
               (forall Y, ~ 2000 <= Y <= 2018 -> t !! Y = None) /\
               sum_values t < Z.of_nat (length recs)) /\
  (forall v, v = Efficient2 \/ v = EfficientFor ->
     exists y, y ∈ recs.*2 /\ ~ 2000 <= y <= 2018 /\
               aggregate v recs s = Raise (KeyError y)).
Proof.
  intros Hex. split.
  - intros v Hv. exists (year_table recs). split; [|split; [|split]].
    + apply aggregate_returns. destruct Hv; [now left | right; now left].
    + intros Y HY. rewrite year_table_lookup. now rewrite decide_True by exact HY.
    + intros Y HY. rewrite year_table_lookup. now rewrite decide_False by exact HY.
    + rewrite sum_values_year_table. now apply records_in_range_lt.
  - intros v Hv. rewrite aggregate_outcome. now apply expected_outcome_KeyError.
Qed.

Lemma out_of_range_excluded_witness :
  Exists (fun r : record => ~ 2000 <= r.2 <= 2018)
         [("AAA"%string, 2005); ("BBB"%string, 2019)] /\
  (exists t, aggregate Inefficient [("AAA"%string, 2005); ("BBB"%string, 2019)] empty_state = Ok t /\
             sum_values t < 2) /\
  (exists y, aggregate Efficient2 [("AAA"%string, 2005); ("BBB"%string, 2019)] empty_state
             = Raise (KeyError y)).
Proof.
  assert (H : Exists (fun r : record => ~ 2000 <= r.2 <= 2018)
                [("AAA"%string, 2005); ("BBB"%string, 2019)]).
  { right. left. cbn. lia. }
  split; [exact H|].
  destruct (out_of_range_excluded _ empty_state H) as [H1 H2]. split.
  - destruct (H1 Inefficient (or_introl eq_refl)) as (t & Ht & _ & _ & Hsum).
    exists t. split; [exact Ht | exact Hsum].
  - destruct (H2 Efficient2 (or_introl eq_refl)) as (y & _ & _ & Hy).
    exists y. exact Hy.
Defined.

(** C4: for every N and every outcome of the random draws, each variant
    run on N generated records returns a Frequency Table whose values sum
    to N. *)
Theorem generated_sum (v : variant) (n : nat) (s : state) :
  exists t, returned_table (generateDict v n s) = Ok t /\ sum_values t = Z.of_nat n.
Proof.
  destruct (generateData_yields n (pre_state v s)) as (recs & s1 & Hsrc & Hlen & HF).
  assert (Hin : Forall (fun r : record => in_range (r.2)) recs).
  { eapply Forall_impl; [exact HF|]. intros r [_ Hr]. unfold in_range. lia. }
  destruct (generateDict_with_returns v _ s _ _ _ Hsrc) as (d & s' & Hrun & Hret).
  { right; right; exact Hin. }
  exists (year_table recs). split.
  - unfold generateDict. rewrite Hrun. now apply returned_table_returns with (s := s).
  - rewrite sum_values_year_table, records_in_range_all by exact Hin. now rewrite Hlen.
Qed.

(** C5 (as stated, refuted): on [("ABC", 2019)] the variant
    generateDictEfficientFor returns no Frequency Table, hence none with
    the 19 keys. *)
Lemma table_shape_fails_on_2019 :
  ~ (exists t, aggregate EfficientFor [("ABC"%string, 2019)] empty_state = Ok t /\
               size t = 19%nat /\
               sum_values t = records_in_range [("ABC"%string, 2019)]).
Proof. intros (t & H & _). vm_compute in H. discriminate. Qed.

(** C5 (amended): for every sequence of records (the empty one included)
    on generateDictInefficient and generateDictEfficient1, and for every
    sequence whose years all lie in 2000..2018 (the empty one included) on
    generateDictEfficient2 and generateDictEfficientFor, the returned
    Frequency Table has exactly the keys 2000..2018, 19 in total, with
    value 0 for a year matched by no record; every value is non-negative;
    and the values sum to the number of input records whose year lies in
    2000..2018. *)
Theorem table_shape (v : variant) (recs : list record) (s : state) :
  returns_on v recs ->
  exists t, aggregate v recs s = Ok t /\
            (forall Y, is_Some (t !! Y) <-> 2000 <= Y <= 2018) /\
            size t = 19%nat /\
            (forall Y, 2000 <= Y <= 2018 ->
                       Forall (fun r : record => r.2 <> Y) recs -> t !! Y = Some 0) /\
            (forall Y c, t !! Y = Some c -> 0 <= c) /\
            sum_values t = records_in_range recs.
Proof.
  intros Hret. exists (year_table recs).
  split; [now apply aggregate_returns|].
  split; [apply year_table_keys|].
  split; [apply year_table_size|].
  split; [intros Y; apply year_table_zero|].
  split; [apply year_table_nonneg | apply sum_values_year_table].
Qed.

Lemma table_shape_witness :
  returns_on Efficient2 [] /\
  exists t, aggregate Efficient2 [] empty_state = Ok t /\
            size t = 19%nat /\
            (forall Y, 2000 <= Y <= 2018 -> t !! Y = Some 0) /\
            sum_values t = 0.
Proof.
  assert (H : returns_on Efficient2 []) by (right; right; constructor).
  split; [exact H|].
  destruct (table_shape Efficient2 [] empty_state H) as (t & Ht & _ & Hsize & Hzero & _ & Hsum).
  exists t. split; [exact Ht|]. split; [exact Hsize|]. split; [|exact Hsum].
  intros Y HY. apply Hzero; [exact HY | constructor].
Defined.

(** C6: for every N and every outcome of the random draws,
    generateData(N) yields exactly N (label, year) pairs; every label has
    exactly 3 characters, each one of A, B, C, D, and every year
    satisfies 2000 <= year < 2018. *)
Theorem generateData_records (n : nat) (s : state) :
  exists z s' recs,
    generateData n s = Ok (z, s') /\
    heap s' !! z = Some (OZip recs) /\
    length recs = n /\
    Forall (fun r : record =>
              (String.length (r.1) = 3%nat /\
               Forall (fun c => c ∈ ["A"; "B"; "C"; "D"]%string) (chars (r.1))) /\
              2000 <= r.2 < 2018) recs.
Proof.
  destruct (generateData_Ok n s) as (recs & s' & Hrun & Hh & Hlen & HF).
  exists (length (heap s)), s', recs. split; [exact Hrun|].
  split; [rewrite Hh; apply lookup_alloc|]. split; [exact Hlen | exact HF].
Qed.

(** C7 (as stated, refuted): the table returned on
    [("AAA",2005); ("BBB",2005); ("CCC",2008)] has 19 keys, so the keys
    other than 2005 and 2008 are 17, not 16. *)
Lemma three_record_scenario_not_16_other_keys :
  ~ (exists t,
       aggregate EfficientFor
         [("AAA"%string, 2005); ("BBB"%string, 2005); ("CCC"%string, 2008)] empty_state = Ok t /\
       t !! 2005 = Some 2 /\
       t !! 2008 = Some 1 /\
       size (delete 2005 (delete 2008 t)) = 16%nat).
Proof.
  intros (t & H & _ & _ & Hsize).
  rewrite aggregate_returns in H by (right; right; repeat constructor; cbn; lia).
  injection H as <-. vm_compute in Hsize. discriminate.
Qed.

(** C7 (amended): on [("AAA",2005); ("BBB",2005); ("CCC",2008)] every
    variant returns a Frequency Table whose values sum to 3, with 2 at key
    2005, 1 at key 2008 and 0 at each of the other 17 keys, the years
    2000..2018 less 2005 and 2008; the table has these 19 keys and no
    other. *)
Theorem three_record_scenario (v : variant) (s : state) :
  exists t,
    aggregate v [("AAA"%string, 2005); ("BBB"%string, 2005); ("CCC"%string, 2008)] s = Ok t /\
    sum_values t = 3 /\
    t !! 2005 = Some 2 /\
    t !! 2008 = Some 1 /\
    Forall (fun Y => t !! Y = Some 0)
           [2000; 2001; 2002; 2003; 2004; 2006; 2007; 2009;
            2010; 2011; 2012; 2013; 2014; 2015; 2016; 2017; 2018] /\
    size t = 19%nat /\
    size (delete 2005 (delete 2008 t)) = 17%nat /\
    (forall Y, is_Some (t !! Y) <-> 2000 <= Y <= 2018).
Proof.
  eexists. split.
  - apply aggregate_returns. right; right. repeat constructor; cbn; lia.
  - split; [vm_compute; reflexivity|].
    split; [vm_compute; reflexivity|].
    split; [vm_compute; reflexivity|].
    split; [repeat (constructor; [vm_compute; reflexivity|]); constructor|].
    split; [apply year_table_size|].
    split; [vm_compute; reflexivity | apply year_table_keys].
Qed.





(** C10: in generateDictEfficient2, one step
    [yearDict.update(getUpdateValue(x, yearDict))] on a yearDict that has
    x's year as a key adds exactly 1 to the value at that key and leaves
    the value at every other key, and the set of keys, unchanged. *)
Theorem update_changes_one_entry (x : record) (yearDict : loc) (s : state)
    (m : gmap Z Z) (c : Z) :
  heap s !! yearDict = Some (ODict None m) ->
  m !! x.2 = Some c ->
  exists s' m',
    (let* u := getUpdateValue x yearDict in dict_update yearDict u) s = Ok (tt, s') /\
    heap s' !! yearDict = Some (ODict None m') /\
    m' !! x.2 = Some (c + 1) /\
    (forall k, k <> x.2 -> m' !! k = m !! k) /\
    dom m' = dom m.
Proof.
  intros Hd Hc. eexists _, (<[x.2 := c + 1]> m). split; [|split; [|split; [|split]]].
  - eapply update_step; eassumption.
  - cbn. apply lookup_app_l_Some. eapply lookup_insert_heap; exact Hd.
  - apply lookup_insert_eq.
  - intros k Hk. now apply lookup_insert_ne.
  - apply dom_insert_lookup_L. eauto.
Qed.

Lemma update_changes_one_entry_witness :
  exists s' m',
    (let* u := getUpdateValue ("ABC"%string, 2007) 0%nat in dict_update 0%nat u)
      (State [ODict None (<[2007 := 4]> (<[2008 := 1]> ∅))] (fun _ => 0%nat) (fun _ => 0%nat))
      = Ok (tt, s') /\
    heap s' !! 0%nat = Some (ODict None m') /\
    m' !! 2007 = Some 5 /\
    m' !! 2008 = Some 1.
Proof.
  assert (Hc : (<[2007 := 4]> (<[2008 := 1]> ∅) : gmap Z Z) !! ("ABC"%string, 2007).2 = Some 4)
    by (vm_compute; reflexivity).
  destruct (update_changes_one_entry ("ABC"%string, 2007) 0%nat
              (State [ODict None (<[2007 := 4]> (<[2008 := 1]> ∅))]
                     (fun _ => 0%nat) (fun _ => 0%nat))
              (<[2007 := 4]> (<[2008 := 1]> ∅)) 4 eq_refl Hc)
    as (s' & m' & H1 & H2 & H3 & H4 & _).
  exists s', m'. split; [exact H1|]. split; [exact H2|]. split; [exact H3|].
  rewrite H4 by (cbn; lia). reflexivity.
Defined.

(** * Further properties of the code *)

(** ** The generator as a function of the draws *)

Lemma random_choice_ABCD s :
  random_choice (chars "ABCD") s =
  Ok (letter_of (py_random s 0%nat),
      State (heap s) (fun i => py_random s (S i)) (np_random s)).
Proof.
  unfold random_choice. erewrite bind_Ok by reflexivity.
  unfold letter_of. change (length (chars "ABCD")) with 4%nat.
  destruct (chars "ABCD" !! (py_random s 0%nat mod 4)%nat) as [c|] eqn:Hc.
  - reflexivity.
  - apply lookup_ge_None_1 in Hc. change (length (chars "ABCD")) with 4%nat in Hc.
    pose proof (Nat.mod_upper_bound (py_random s 0%nat) 4). lia.
Qed.

Lemma journal_name_Ok s :
  (let* letters := list_comp (range_n 3) (fun _ => random_choice (chars "ABCD")) in
   ret (join letters)) s =
  Ok (name_of (py_random s) 0,
      State (heap s) (fun i => py_random s (S (S (S i)))) (np_random s)).
Proof.
  unfold range_n. cbn [seq list_comp].
  erewrite bind_Ok.
  2:{ erewrite bind_Ok by apply random_choice_ABCD.
      erewrite bind_Ok.
      2:{ erewrite bind_Ok by apply random_choice_ABCD.
          erewrite bind_Ok.
          2:{ erewrite bind_Ok by apply random_choice_ABCD.
              erewrite bind_Ok by reflexivity. reflexivity. }
          reflexivity. }
      reflexivity. }
  reflexivity.
Qed.

Lemma name_of_shift py k :
  name_of (fun i => py (S (S (S i)))) k = name_of py (S k).
Proof.
  unfold name_of.
  replace (3 * S k)%nat with (S (S (S (3 * k)))) by lia.
  replace (3 * S k + 1)%nat with (S (S (S (3 * k + 1)))) by lia.
  replace (3 * S k + 2)%nat with (S (S (S (3 * k + 2)))) by lia.
  reflexivity.
Qed.

Lemma journal_names_Ok (xs : list nat) s :
  exists s',
    list_comp xs (fun _ =>
      let* letters := list_comp (range_n 3) (fun _ => random_choice (chars "ABCD")) in
      ret (join letters)) s
    = Ok (name_of (py_random s) <$> seq 0 (length xs), s') /\
    heap s' = heap s /\ np_random s' = np_random s /\
    forall i, py_random s' i = py_random s (3 * length xs + i)%nat.
Proof.
  revert s. induction xs as [|x xs IH]; intros s.
  - exists s. repeat split.
  - destruct (IH (State (heap s) (fun i => py_random s (S (S (S i)))) (np_random s)))
      as (s' & Hrun & Hh & Hnp & Hpy).
    exists s'. split; [|split; [|split]].
    + cbn [list_comp]. erewrite bind_Ok by apply journal_name_Ok.
      erewrite bind_Ok by exact Hrun. cbn [py_random length seq fmap list_fmap].
      unfold ret. do 3 f_equal.
      rewrite <- fmap_S_seq, <- list_fmap_compose.
      apply list_fmap_ext. intros i k _. cbn. apply name_of_shift.
    + exact Hh.
    + exact Hnp.
    + intros i. rewrite Hpy. cbn [py_random length]. f_equal. lia.
Qed.

Lemma generateJournalNames_exact n s :
  exists s',
    generateJournalNames n s = Ok (name_of (py_random s) <$> seq 0 n, s') /\
    heap s' = heap s /\ np_random s' = np_random s /\
    forall i, py_random s' i = py_random s (3 * n + i)%nat.
Proof.
  destruct (journal_names_Ok (range_n n) s) as (s' & Hrun & Hrest).
  unfold range_n in *. rewrite length_seq in *.
  exists s'. split; [|exact Hrest].
  unfold generateJournalNames. erewrite bind_Ok by exact Hrun. reflexivity.
Qed.

Lemma generateYears_exact n s :
  exists s',
    generateYears n s = Ok (year_of (np_random s) <$> seq 0 n, s') /\
    heap s' = heap s /\ py_random s' = py_random s /\
    forall i, np_random s' i = np_random s (n + i)%nat.
Proof.
  assert (H : exists s',
    np_random_choice (range 2000 2018) n s = Ok (year_of (np_random s) <$> seq 0 n, s') /\
    heap s' = heap s /\ py_random s' = py_random s /\
    forall i, np_random s' i = np_random s (n + i)%nat).
  { revert s. induction n as [|n IH]; intros s.
    - exists s. repeat split.
    - destruct (IH (State (heap s) (py_random s) (fun i => np_random s (S i))))
        as (s' & Hrun & Hh & Hpy & Hnp).
      exists s'. split; [|split; [|split]].
      + cbn [np_random_choice]. erewrite bind_Ok by reflexivity.
        replace (length (range 2000 2018)) with 18%nat by reflexivity.
        unfold range. rewrite lookup_seqZ_lt
          by (pose proof (Nat.mod_upper_bound (np_random s 0%nat) 18); lia).
        erewrite bind_Ok by exact Hrun. cbn [np_random seq fmap list_fmap].
        unfold ret. do 3 f_equal.
        rewrite <- fmap_S_seq, <- list_fmap_compose. reflexivity.
      + exact Hh.
      + exact Hpy.
      + intros i. rewrite Hnp. cbn [np_random]. f_equal. }
  destruct H as (s' & Hrun & Hrest). exists s'. split; [|exact Hrest].
  unfold generateYears. erewrite bind_Ok by exact Hrun. reflexivity.
Qed.

Lemma zip_fmap_seq {A B} (f : nat -> A) (g : nat -> B) (l : list nat) :
  zip (f <$> l) (g <$> l) = (fun k => (f k, g k)) <$> l.
Proof. induction l as [|k l IH]; [reflexivity|]. cbn. now rewrite IH. Qed.

Lemma generateData_exact n s :
  exists s',
    generateData n s = Ok (length (heap s), s') /\
    heap s' = heap s ++ [OZip (generated n (py_random s) (np_random s))] /\
    (forall i, py_random s' i = py_random s (3 * n + i)%nat) /\
    (forall i, np_random s' i = np_random s (n + i)%nat).
Proof.
  destruct (generateJournalNames_exact n s) as (s1 & Hn & Hh1 & Hnp1 & Hpy1).
  destruct (generateYears_exact n s1) as (s2 & Hy & Hh2 & Hpy2 & Hnp2).
  exists (set_heap s2 (heap s2 ++ [OZip (generated n (py_random s) (np_random s))])).
  split; [|split; [|split]].
  - unfold generateData. erewrite bind_Ok by exact Hn. erewrite bind_Ok by exact Hy.
    rewrite alloc_Ok, Hnp1, zip_fmap_seq. now rewrite Hh2, Hh1.
  - cbn. now rewrite Hh2, Hh1.
  - intros i. cbn. now rewrite Hpy2.
  - intros i. cbn. now rewrite Hnp2, Hnp1.
Qed.

(** ** Every well-formed data set is generated by some draws *)

Lemma letter_of_index c : c ∈ chars "ABCD" -> letter_of (letter_index c) = c.
Proof.
  cbn [chars]. rewrite !elem_of_cons, elem_of_nil.
  intros [->|[->|[->|[->|[]]]]]; reflexivity.
Qed.

Lemma join_chars lbl : join (chars lbl) = lbl.
Proof.
  unfold join. induction lbl as [|c lbl IH]; [reflexivity|].
  cbn [chars String.concat]. destruct lbl as [|c' lbl]; [reflexivity|].
  cbn [chars] in *. rewrite IH. reflexivity.
Qed.

Lemma div_mod_3 k j : (j < 3)%nat -> ((3 * k + j) / 3 = k /\ (3 * k + j) mod 3 = j)%nat.
Proof.
  intros Hj. split; symmetry.
  - apply Nat.div_unique with (r := j); [exact Hj | reflexivity].
  - apply Nat.mod_unique with (q := k); [exact Hj | reflexivity].
Qed.

Lemma name_of_draws (names : list string) k lbl :
  names !! k = Some lbl -> label_ok lbl -> name_of (draws_for_names names) k = lbl.
Proof.
  intros Hk [Hlen Hall]. unfold name_of, draws_for_names.
  replace (3 * k)%nat with (3 * k + 0)%nat at 1 2 by lia.
  destruct (div_mod_3 k 0) as [-> ->]; [lia|].
  destruct (div_mod_3 k 1) as [-> ->]; [lia|].
  destruct (div_mod_3 k 2) as [-> ->]; [lia|].
  rewrite (nth_lookup_Some _ _ _ _ Hk).
  rewrite <- (join_chars lbl) at 4.
  destruct lbl as [|a [|b [|c [|? ?]]]]; try discriminate.
  cbn [chars nth] in *.
  apply Forall_cons in Hall as [Ha Hall]. apply Forall_cons in Hall as [Hb Hall].
  apply Forall_cons in Hall as [Hc _].
  now rewrite !letter_of_index by assumption.
Qed.

Lemma year_of_draws (years : list Z) k y :
  years !! k = Some y -> 2000 <= y < 2018 -> year_of (draws_for_years years) k = y.
Proof.
  intros Hk Hy. unfold year_of, draws_for_years.
  rewrite (nth_lookup_Some _ _ _ _ Hk), Nat.mod_small by lia. lia.
Qed.

Lemma generated_draws (recs : list record) :
  Forall (fun r : record => label_ok (r.1) /\ 2000 <= r.2 < 2018) recs ->
  generated (length recs) (draws_for_names (recs.*1)) (draws_for_years (recs.*2)) = recs.
Proof.
  intros Hall. unfold generated. apply list_eq. intros i.
  rewrite list_lookup_fmap. destruct (recs !! i) as [[lbl y]|] eqn:Hi.
  - rewrite lookup_seq_lt by (now apply lookup_lt_Some in Hi).
    cbn [fmap option_fmap option_map Nat.add].
    rewrite Forall_forall in Hall.
    destruct (Hall (lbl, y)) as [Hlbl Hy]; [eapply list_elem_of_lookup_2; exact Hi|].
    rewrite (name_of_draws _ _ lbl), (year_of_draws _ _ y); try assumption; try reflexivity.
    + apply list_lookup_fmap_Some. exists (lbl, y). split; [reflexivity | exact Hi].
    + apply list_lookup_fmap_Some. exists (lbl, y). split; [reflexivity | exact Hi].
  - rewrite lookup_seq_ge by (now apply lookup_ge_None_1 in Hi). reflexivity.
Qed.

(** ** The store after an aggregation of a stored input *)

Lemma length_consumed l h : length (consumed l h) = length h.
Proof. unfold consumed. destruct (h !! l) as [[]|]; try reflexivity. apply length_insert. Qed.

Lemma consumed_app l h ext :
  (l < length h)%nat -> consumed l (h ++ ext) = consumed l h ++ ext.
Proof.
  intros Hl. unfold consumed, loc. rewrite lookup_app_l by exact Hl.
  destruct (h !! l) as [[]|]; try reflexivity. now apply insert_app_l.
Qed.

Lemma iter_items_consumed l s recs :
  holds_records s l recs ->
  iter_items l s = Ok (recs, set_heap s (consumed l (heap s))).
Proof.
  intros [H|H]; unfold iter_items, consumed; rewrite H; [|reflexivity].
  now rewrite set_heap_heap.
Qed.

Lemma holds_records_lt s l recs : holds_records s l recs -> (l < length (heap s))%nat.
Proof. intros [H|H]; now apply lookup_lt_Some in H. Qed.

Lemma consumed_list l h xs : h !! l = Some (OList xs) -> consumed l h = h.
Proof. intros H. unfold consumed. now rewrite H. Qed.

Lemma consumed_zip l h xs : h !! l = Some (OZip xs) -> consumed l h !! l = Some (OZip []).
Proof. intros H. unfold consumed. rewrite H. eapply lookup_insert_heap; exact H. Qed.

Lemma list_comp_update_exact (xs : list record) d s df m :
  heap s !! d = Some (ODict df m) ->
  Forall (fun r : record => is_Some (m !! r.2)) xs ->
  list_comp xs (fun x => let* u := getUpdateValue x d in dict_update d u) s =
  Ok (replicate (length xs) tt,
      set_heap s (<[d := ODict df (tally (xs.*2) m)]> (heap s) ++ update_dicts (xs.*2) m)).
Proof.
  revert s m. induction xs as [|x xs IH]; intros s m Hd Hxs.
  - cbn. unfold ret. rewrite app_nil_r. now rewrite set_heap_insert_id.
  - apply Forall_cons in Hxs as [[c Hc] Hxs].
    pose proof (lookup_lt_Some _ _ _ Hd) as Hlt.
    cbn [list_comp]. erewrite bind_Ok by (eapply update_step; eassumption).
    erewrite bind_Ok.
    2:{ apply IH with (m := <[x.2 := c + 1]> m).
        - cbn. apply lookup_app_l_Some. eapply lookup_insert_heap; exact Hd.
        - eapply Forall_impl; [exact Hxs|]. intros r Hr. cbn in Hr |- *.
          destruct (decide (x.2 = r.2)) as [->|Hne].
          + rewrite lookup_insert_eq. eauto.
          + now rewrite lookup_insert_ne. }
    unfold ret. cbn [heap set_heap fmap list_fmap tally foldl update_dicts length replicate].
    rewrite Hc. cbn [default].
    rewrite insert_app_l by (rewrite length_insert; exact Hlt).
    rewrite list_insert_insert_eq. now rewrite <- app_assoc.
Qed.

(** The exact result of every variant on a stored list or zip object: the
    location returned is the first free one, the input object is iterated
    over once, the objects of [allocated] are appended to the store, and
    nothing else in the state changes. *)
Lemma generateDict_with_exact v s l recs :
  holds_records s l recs -> returns_on v recs ->
  generateDict_with v (ret l) s =
  Ok (length (heap s), set_heap s (consumed l (heap s) ++ allocated v recs)).
Proof.
  intros Hl Hret. pose proof (holds_records_lt _ _ _ Hl) as Hlt.
  set (h := heap s).
  assert (Hcl : length (consumed l h) = length h) by apply length_consumed.
  assert (Hins : forall o o', <[length h := o']> (consumed l h ++ [o]) = consumed l h ++ [o'])
    by (intros; rewrite <- Hcl; apply insert_alloc).
  destruct v; cbn [generateDict_with allocated].
  - unfold generateDictInefficient_with.
    erewrite bind_Ok by apply alloc_Ok.
    erewrite bind_Ok by reflexivity.
    erewrite bind_Ok.
    2:{ unfold list_. erewrite bind_Ok.
        2:{ apply iter_items_consumed with (recs := recs). now apply holds_records_app. }
        apply alloc_Ok. }
    cbn [heap set_heap]. fold h. rewrite consumed_app by exact Hlt.
    erewrite bind_Ok.
    2:{ apply for_each_years with (xs := recs) (m := ∅); cbn [heap set_heap].
        - apply lookup_app_l_Some. rewrite <- Hcl. apply lookup_alloc.
        - apply lookup_alloc. }
    unfold ret. cbn [heap set_heap]. rewrite ?set_heap_set_heap. rewrite scan_year_table.
    rewrite insert_app_l by (rewrite length_app, Hcl; cbn [length]; lia).
    rewrite Hins. now rewrite <- app_assoc.
  - unfold generateDictEfficient1_with.
    erewrite bind_Ok by reflexivity.
    erewrite bind_Ok.
    2:{ unfold list_comp_in. erewrite bind_Ok by (apply iter_items_consumed; exact Hl).
        apply list_comp_pure. }
    erewrite bind_Ok by apply list_comp_pure.
    erewrite bind_Ok by apply dict_comp_pure.
    unfold ret. cbn [heap set_heap]. rewrite ?set_heap_set_heap. fold h.
    now rewrite Hcl, fmap_self, fill_year_table.
  - destruct Hret as [?|[?|Hin]]; try discriminate.
    unfold generateDictEfficient2_with.
    erewrite bind_Ok by apply dict_comp_pure.
    erewrite bind_Ok by reflexivity.
    erewrite bind_Ok.
    2:{ unfold list_comp_in. erewrite bind_Ok.
        2:{ apply iter_items_consumed with (recs := recs). now apply holds_records_app. }
        cbn [heap set_heap]. fold h. rewrite consumed_app by exact Hlt.
        apply list_comp_update_exact with (m := zero_table); cbn [heap set_heap].
        - rewrite <- Hcl. apply lookup_alloc.
        - now apply all_in_range_keys. }
    unfold ret. cbn [heap set_heap]. rewrite ?set_heap_set_heap. rewrite tally_year_table by exact Hin.
    rewrite Hins. now rewrite <- app_assoc.
  - destruct Hret as [?|[?|Hin]]; try discriminate.
    unfold generateDictEfficientFor_with.
    erewrite bind_Ok by reflexivity.
    erewrite bind_Ok by apply dict_comp_pure.
    erewrite bind_Ok.
    2:{ unfold for_in. erewrite bind_Ok.
        2:{ apply iter_items_consumed with (recs := recs). now apply holds_records_app. }
        cbn [heap set_heap]. fold h. rewrite consumed_app by exact Hlt.
        apply for_each_iadd_Ok with (m := zero_table); cbn [heap set_heap].
        - rewrite <- Hcl. apply lookup_alloc.
        - now apply all_in_range_keys. }
    unfold ret. cbn [heap set_heap]. rewrite ?set_heap_set_heap. rewrite tally_year_table by exact Hin.
    now rewrite Hins.
Qed.

(** ** Helpers on generated data and on year tables *)

Lemma generated_years_in_range n py np :
  Forall (fun r : record => 2000 <= r.2 < 2018) (generated n py np).
Proof.
  unfold generated. apply Forall_fmap, Forall_forall. intros k _.
  change (2000 <= year_of np k < 2018). unfold year_of.
  pose proof (Nat.mod_upper_bound (np k) 18). lia.
Qed.

Lemma generated_in_range n py np :
  Forall (fun r : record => in_range (r.2)) (generated n py np).
Proof.
  eapply Forall_impl; [apply generated_years_in_range|].
  intros r Hr. cbn beta in Hr. unfold in_range. lia.
Qed.

Lemma generated_length n py np : length (generated n py np) = n.
Proof. unfold generated. now rewrite length_fmap, length_seq. Qed.

Lemma generated_years n py1 py2 np1 np2 :
  (forall k, (k < n)%nat -> np1 k = np2 k) ->
  (generated n py1 np1).*2 = (generated n py2 np2).*2.
Proof.
  intros E. unfold generated. rewrite <- !list_fmap_compose.
  apply list_fmap_ext. intros i k Hk. apply lookup_seq in Hk as [-> Hlt].
  cbn. unfold year_of. now rewrite E by lia.
Qed.

Lemma generateData_source n s :
  exists s', source_yields (generateData n) s (length (heap s)) s'
               (generated n (py_random s) (np_random s)).
Proof.
  destruct (generateData_exact n s) as (s' & Hrun & Hh & _).
  exists s'. split; [exact Hrun|]. split.
  - split; [rewrite Hh, length_app; lia|].
    intros i o Hi _. rewrite Hh. now apply lookup_app_l_Some.
  - right. rewrite Hh. apply lookup_alloc.
Qed.

Lemma pre_state_streams v s :
  py_random (pre_state v s) = py_random s /\ np_random (pre_state v s) = np_random s.
Proof. destruct v; split; reflexivity. Qed.

(** Every [generateDict…(n)] returns the year table of the generated
    records, which are a function of the draws only. *)
Lemma generateDict_generated v n s :
  exists d s' df,
    generateDict v n s = Ok (d, s') /\
    heap s' !! d = Some (ODict df (year_table (generated n (py_random s) (np_random s)))).
Proof.
  destruct (generateData_source n (pre_state v s)) as (s1 & Hsrc).
  destruct (pre_state_streams v s) as [Epy Enp]. rewrite Epy, Enp in Hsrc.
  destruct (generateDict_with_returns v _ s _ _ _ Hsrc) as (d & s' & Hrun & _ & _ & df & Hd).
  { right; right. apply generated_in_range. }
  exists d, s', df. split; [exact Hrun | exact Hd].
Qed.

Lemma records_with_year_app Y (recs1 recs2 : list record) :
  records_with_year Y (recs1 ++ recs2) = records_with_year Y recs1 + records_with_year Y recs2.
Proof. unfold records_with_year. rewrite filter_app, length_app. lia. Qed.

Lemma records_with_year_perm Y (recs1 recs2 : list record) :
  recs1 ≡ₚ recs2 -> records_with_year Y recs1 = records_with_year Y recs2.
Proof. intros H. unfold records_with_year. now rewrite H. Qed.

Lemma year_table_perm (recs1 recs2 : list record) :
  recs1 ≡ₚ recs2 -> year_table recs1 = year_table recs2.
Proof.
  intros H. apply map_eq. intros Y. rewrite !year_table_lookup.
  destruct (decide (in_range Y)); [|reflexivity]. f_equal. now apply records_with_year_perm.
Qed.

Lemma year_table_app (recs1 recs2 : list record) :
  year_table (recs1 ++ recs2) =
  union_with (fun a b => Some (a + b)) (year_table recs1) (year_table recs2).
Proof.
  apply map_eq. intros Y. rewrite lookup_union_with, !year_table_lookup.
  destruct (decide (in_range Y)); [|reflexivity]. cbn. now rewrite records_with_year_app.
Qed.

Lemma first_missing_app m ys zs :
  first_missing m (ys ++ zs) =
  match first_missing m ys with Some y => Some y | None => first_missing m zs end.
Proof.
  induction ys as [|y ys IH]; [reflexivity|]. cbn [app first_missing].
  destruct (m !! y); [exact IH | reflexivity].
Qed.

Lemma returns_on_perm v (recs1 recs2 : list record) :
  recs1 ≡ₚ recs2 -> returns_on v recs1 -> returns_on v recs2.
Proof.
  intros H [?|[?|Hin]]; [now left | right; now left | right; right]. now rewrite <- H.
Qed.

Lemma returns_on_app v (recs1 recs2 : list record) :
  returns_on v (recs1 ++ recs2) -> returns_on v recs1 /\ returns_on v recs2.
Proof.
  intros [?|[?|Hin]].
  - split; now left.
  - split; right; now left.
  - apply Forall_app in Hin as [H1 H2]. split; right; right; assumption.
Qed.

(** ** Properties of the generator *)

(** X1: [generateJournalNames(n)] returns [n] names; the [k]-th name is
    made of the letters chosen by the draws [3k], [3k+1], [3k+2] of the
    [random] module, in this order.  It uses exactly [3n] draws of that
    module, none of numpy's, and leaves the store as it is. *)
Theorem generateJournalNames_draws (n : nat) (s : state) :
  exists names s',
    generateJournalNames n s = Ok (names, s') /\
    length names = n /\
    (forall k, (k < n)%nat ->
       names !! k = Some (join [letter_of (py_random s (3 * k)%nat);
                                letter_of (py_random s (3 * k + 1)%nat);
                                letter_of (py_random s (3 * k + 2)%nat)])) /\
    (forall i, py_random s' i = py_random s (3 * n + i)%nat) /\
    np_random s' = np_random s /\
    heap s' = heap s.
Proof.
  destruct (generateJournalNames_exact n s) as (s' & Hrun & Hh & Hnp & Hpy).
  exists (name_of (py_random s) <$> seq 0 n), s'.
  split; [exact Hrun|]. split; [now rewrite length_fmap, length_seq|].
  split; [|split; [exact Hpy | split; [exact Hnp | exact Hh]]].
  intros k Hk. rewrite list_lookup_fmap, lookup_seq_lt by exact Hk. reflexivity.
Qed.

(** X2: [generateYears(n)] returns [n] years; the [k]-th year is 2000
    plus the [k]-th numpy draw taken modulo 18.  It uses exactly [n] draws
    of numpy, none of the [random] module, and leaves the store as it is. *)
Theorem generateYears_draws (n : nat) (s : state) :
  exists years s',
    generateYears n s = Ok (years, s') /\
    length years = n /\
    (forall k, (k < n)%nat ->
       years !! k = Some (2000 + Z.of_nat (np_random s k mod 18))) /\
    (forall i, np_random s' i = np_random s (n + i)%nat) /\
    py_random s' = py_random s /\
    heap s' = heap s.
Proof.
  destruct (generateYears_exact n s) as (s' & Hrun & Hh & Hpy & Hnp).
  exists (year_of (np_random s) <$> seq 0 n), s'.
  split; [exact Hrun|]. split; [now rewrite length_fmap, length_seq|].
  split; [|split; [exact Hnp | split; [exact Hpy | exact Hh]]].
  intros k Hk. rewrite list_lookup_fmap, lookup_seq_lt by exact Hk. reflexivity.
Qed.


(** X4: every list of records whose labels are 3 letters of ABCD and
    whose years lie in 2000..2017 is produced by [generateData] for some
    outcome of the draws, in any store. *)
Theorem generateData_reaches (recs : list record) (h : list obj) :
  Forall (fun r : record => label_ok (r.1) /\ 2000 <= r.2 < 2018) recs ->
  exists py np z s',
    generateData (length recs) (State h py np) = Ok (z, s') /\
    heap s' !! z = Some (OZip recs).
Proof.
  intros Hall.
  exists (draws_for_names (recs.*1)), (draws_for_years (recs.*2)).
  destruct (generateData_exact (length recs)
              (State h (draws_for_names (recs.*1)) (draws_for_years (recs.*2))))
    as (s' & Hrun & Hh & _).
  exists (length h), s'. split; [exact Hrun|].
  rewrite Hh. cbn [heap py_random np_random]. rewrite (generated_draws _ Hall).
  apply lookup_alloc.
Qed.

Lemma generateData_reaches_witness :
  exists py np z s',
    generateData 2 (State [] py np) = Ok (z, s') /\
    heap s' !! z = Some (OZip [("BAD"%string, 2017); ("CCA"%string, 2000)]).
Proof.
  apply (generateData_reaches [("BAD"%string, 2017); ("CCA"%string, 2000)] []).
  repeat constructor; cbn; try lia; set_solver.
Defined.

(** ** Properties of the aggregators on generated data *)

(** X5: the generator never draws the year 2018, so in the table that
    any [generateDict…(n)] returns the bucket 2018 is 0, whatever [n] and
    the draws. *)
Theorem bucket_2018_is_zero (v : variant) (n : nat) (s : state) :
  exists t, returned_table (generateDict v n s) = Ok t /\ t !! 2018 = Some 0.
Proof.
  destruct (generateDict_generated v n s) as (d & s' & df & Hrun & Hd).
  eexists. split; [rewrite Hrun; cbn; rewrite Hd; reflexivity|].
  apply year_table_zero; [unfold in_range; lia|].
  eapply Forall_impl; [apply generated_years_in_range|].
  intros r Hr. cbn beta in Hr. lia.
Qed.

(** X6: run from the same state of the random generators, the four
    functions [generateDictInefficient], [generateDictEfficient1],
    [generateDictEfficient2] and [generateDictEfficientFor] return equal
    tables. *)
Theorem variants_agree_on_generated (v1 v2 : variant) (n : nat) (s : state) :
  exists t,
    returned_table (generateDict v1 n s) = Ok t /\
    returned_table (generateDict v2 n s) = Ok t.
Proof.
  destruct (generateDict_generated v1 n s) as (d1 & s1 & df1 & Hrun1 & Hd1).
  destruct (generateDict_generated v2 n s) as (d2 & s2 & df2 & Hrun2 & Hd2).
  exists (year_table (generated n (py_random s) (np_random s))).
  rewrite Hrun1, Hrun2. cbn. now rewrite Hd1, Hd2.
Qed.

(** X7: the table that [generateDict…(n)] returns depends on the first
    [n] draws of numpy only: two runs that agree on them return equal
    tables, whatever the draws of the [random] module (the labels), the
    later draws and the stores. *)
Theorem table_depends_on_numpy_only (v : variant) (n : nat) (s1 s2 : state) :
  (forall k, (k < n)%nat -> np_random s1 k = np_random s2 k) ->
  exists t,
    returned_table (generateDict v n s1) = Ok t /\
    returned_table (generateDict v n s2) = Ok t.
Proof.
  intros Enp.
  destruct (generateDict_generated v n s1) as (d1 & s1' & df1 & Hrun1 & Hd1).
  destruct (generateDict_generated v n s2) as (d2 & s2' & df2 & Hrun2 & Hd2).
  exists (year_table (generated n (py_random s1) (np_random s1))).
  rewrite Hrun1, Hrun2. cbn. rewrite Hd1, Hd2. split; [reflexivity|].
  f_equal. apply year_table_years. symmetry. now apply generated_years.
Qed.

Lemma table_depends_on_numpy_only_witness :
  exists t,
    returned_table (generateDict Efficient2 3
      (State [] (fun i => i) (fun i => (7 * i)%nat))) = Ok t /\
    returned_table (generateDict Efficient2 3
      (State [OList []] (fun i => (i * i)%nat) (fun i => (7 * (i mod 3))%nat))) = Ok t.
Proof.
  apply (table_depends_on_numpy_only Efficient2 3
           (State [] (fun i => i) (fun i => (7 * i)%nat))
           (State [OList []] (fun i => (i * i)%nat) (fun i => (7 * (i mod 3))%nat))).
  intros k Hk. cbn [np_random]. rewrite Nat.mod_small by lia. reflexivity.
Defined.

(** X8: the four unit tests [test0], [test1], [test2] and [test3] pass
    for every outcome of the random draws. *)
Theorem unit_tests_pass (s : state) :
  run_test test0 s = Passed /\ run_test test1 s = Passed /\
  run_test test2 s = Passed /\ run_test test3 s = Passed.
Proof.
  assert (H : forall v n N s0, Z.of_nat n = N ->
            run_test (let* result := generateDict v n in
                      let* result_size := values_sum result in
                      ret (assertEqual result_size N)) s0 = Passed).
  { intros v n N s0 HN.
    destruct (generateDict_generated v n s0) as (d & s' & df & Hrun & Hd).
    unfold run_test. erewrite bind_Ok by exact Hrun.
    erewrite bind_Ok by (unfold values_sum; rewrite Hd; reflexivity).
    unfold ret, assertEqual. rewrite decide_True; [reflexivity|].
    rewrite sum_values_year_table, records_in_range_all by apply generated_in_range.
    now rewrite generated_length. }
  repeat split.
  - apply (H Inefficient). apply Z2Nat.id. lia.
  - apply (H Efficient1). apply Z2Nat.id. lia.
  - apply (H Efficient2). apply Z2Nat.id. lia.
  - apply (H EfficientFor). apply Z2Nat.id. lia.
Qed.

(** ** Properties of the aggregators on a stored input *)

(** X9: [generateDictInefficient] returns its [defaultdict]: reading a
    year outside 2000..2018 from the returned table yields 0 and adds that
    year as a 20th key.  The tables of the three other functions are
    plain dicts, and the same read raises [KeyError]. *)
Theorem returned_defaultdict (s : state) (l : loc) (recs : list record) (Y : Z) :
  heap s !! l = Some (OList recs) ->
  ~ 2000 <= Y <= 2018 ->
  (exists s',
     (let* d := generateDict_with Inefficient (ret l) in
      let* c := getitem d Y in
      ret (d, c)) s = Ok ((length (heap s), 0), s') /\
     table_at s' (length (heap s)) = Some (<[Y := 0]> (year_table recs)) /\
     size (<[Y := 0]> (year_table recs)) = 20%nat) /\
  (forall v, v <> Inefficient -> returns_on v recs ->
     (let* d := generateDict_with v (ret l) in getitem d Y) s = Raise (KeyError Y)).
Proof.
  intros Hl HY.
  assert (Hh : holds_records s l recs) by now left.
  assert (Hnone : year_table recs !! Y = None).
  { rewrite year_table_lookup. now rewrite decide_False by exact HY. }
  assert (Hd : forall v, (consumed l (heap s) ++ allocated v recs) !! length (heap s)
                         = head (allocated v recs)).
  { intros v. rewrite <- (length_consumed l (heap s)).
    rewrite lookup_app_r by lia. rewrite Nat.sub_diag. now destruct v. }
  split.
  - eexists. split; [|split].
    + erewrite bind_Ok by (apply generateDict_with_exact; [exact Hh | now left]).
      erewrite bind_Ok.
      2:{ apply getitem_default with (v0 := 0) (m := year_table recs); [|exact Hnone].
          cbn [heap set_heap]. exact (Hd Inefficient). }
      reflexivity.
    + unfold table_at. cbn [heap set_heap].
      rewrite (lookup_insert_heap _ _ _ _ (Hd Inefficient)). reflexivity.
    + rewrite map_size_insert_None by exact Hnone. now rewrite year_table_size.
  - intros v Hv Hret.
    erewrite bind_Ok by (apply generateDict_with_exact; [exact Hh | exact Hret]).
    apply getitem_missing with (m := year_table recs); [|exact Hnone].
    cbn [heap set_heap]. rewrite Hd. destruct v; try reflexivity. now destruct Hv.
Qed.

Lemma returned_defaultdict_witness :
  exists s',
    (let* d := generateDict_with Inefficient (ret 0%nat) in
     let* c := getitem d 1999 in
     ret (d, c)) (State [OList [("AAA"%string, 2005)]] (fun _ => 0%nat) (fun _ => 0%nat))
    = Ok ((1%nat, 0), s') /\
    table_at s' 1%nat = Some (<[1999 := 0]> (year_table [("AAA"%string, 2005)])).
Proof.
  destruct (returned_defaultdict
              (State [OList [("AAA"%string, 2005)]] (fun _ => 0%nat) (fun _ => 0%nat))
              0%nat [("AAA"%string, 2005)] 1999 eq_refl ltac:(lia))
    as [(s' & H1 & H2 & _) _].
  exists s'. split; [exact H1 | exact H2].
Defined.

(** X10: an aggregation of a stored list, when it returns, returns a
    dictionary that did not exist before, leaves every object that
    existed before as it was, and draws no random number: both generators
    are in the state they were in. *)
Theorem aggregation_footprint (v : variant) (s : state) (l : loc) (recs : list record) :
  heap s !! l = Some (OList recs) ->
  returns_on v recs ->
  exists d s',
    generateDict_with v (ret l) s = Ok (d, s') /\
    heap s !! d = None /\
    table_at s' d = Some (year_table recs) /\
    (forall i o, heap s !! i = Some o -> heap s' !! i = Some o) /\
    py_random s' = py_random s /\ np_random s' = np_random s.
Proof.
  intros Hl Hret. exists (length (heap s)). eexists.
  split; [apply generateDict_with_exact with (recs := recs); [now left | exact Hret]|].
  cbn [heap set_heap py_random np_random].
  rewrite (consumed_list _ _ _ Hl).
  split; [now apply lookup_ge_None_2|]. split; [|split; [|split; reflexivity]].
  - unfold table_at. cbn [heap set_heap].
    rewrite lookup_app_r by lia. rewrite Nat.sub_diag. now destruct v.
  - intros i o Hi. now apply lookup_app_l_Some.
Qed.

Lemma aggregation_footprint_witness :
  exists d s',
    generateDict_with Efficient2 (ret 0%nat)
      (State [OList [("AAA"%string, 2005); ("ABC"%string, 2018)]]
             (fun i => (3 * i)%nat) (fun i => (i + 4)%nat)) = Ok (d, s') /\
    heap s' !! 0%nat = Some (OList [("AAA"%string, 2005); ("ABC"%string, 2018)]) /\
    py_random s' = (fun i => (3 * i)%nat) /\ np_random s' = (fun i => (i + 4)%nat).
Proof.
  destruct (aggregation_footprint Efficient2
              (State [OList [("AAA"%string, 2005); ("ABC"%string, 2018)]]
                     (fun i => (3 * i)%nat) (fun i => (i + 4)%nat))
              0%nat [("AAA"%string, 2005); ("ABC"%string, 2018)] eq_refl)
    as (d & s' & H1 & _ & _ & H2 & H3 & H4).
  { right; right. repeat constructor; cbn; lia. }
  exists d, s'. split; [exact H1|]. split; [apply H2; reflexivity|].
  split; [exact H3 | exact H4].
Defined.

(** X11: a zip object is used up by an aggregation: after the run it
    has no pair left, and a second aggregation of the same object returns
    the table with 0 at every year. *)
Theorem zip_input_is_used_up (v : variant) (s : state) (z : loc) (recs : list record) :
  heap s !! z = Some (OZip recs) ->
  returns_on v recs ->
  exists d1 s1 d2 s2 t2,
    generateDict_with v (ret z) s = Ok (d1, s1) /\
    table_at s1 d1 = Some (year_table recs) /\
    heap s1 !! z = Some (OZip []) /\
    generateDict_with v (ret z) s1 = Ok (d2, s2) /\
    table_at s2 d2 = Some t2 /\
    (forall Y, 2000 <= Y <= 2018 -> t2 !! Y = Some 0).
Proof.
  intros Hz Hret.
  pose proof (lookup_lt_Some _ _ _ Hz) as Hlt.
  assert (Hhead : forall (h : list obj) rs,
            (h ++ allocated v rs) !! length h
            = Some (ODict (match v with Inefficient => Some 0 | _ => None end) (year_table rs))).
  { intros h rs. rewrite lookup_app_r by lia. rewrite Nat.sub_diag. now destruct v. }
  pose (s1 := set_heap s (consumed z (heap s) ++ allocated v recs)).
  assert (Hz1 : heap s1 !! z = Some (OZip [])).
  { cbn [s1 heap set_heap]. apply lookup_app_l_Some. eapply consumed_zip; exact Hz. }
  exists (length (heap s)), s1, (length (heap s1)),
         (set_heap s1 (consumed z (heap s1) ++ allocated v [])), (year_table []).
  split; [apply generateDict_with_exact; [now right | exact Hret]|].
  split.
  { unfold table_at. cbn [s1 heap set_heap].
    rewrite <- (length_consumed z (heap s)) at 1. now rewrite Hhead. }
  split; [exact Hz1|].
  split.
  { apply generateDict_with_exact; [now right|]. right; right. constructor. }
  split.
  { unfold table_at. cbn [heap set_heap].
    rewrite <- (length_consumed z (heap s1)) at 1. now rewrite Hhead. }
  intros Y HY. apply year_table_zero; [exact HY | constructor].
Qed.

Lemma zip_input_is_used_up_witness :
  exists d1 s1 d2 s2 t2,
    generateDict_with EfficientFor (ret 0%nat)
      (State [OZip [("AAA"%string, 2005)]] (fun _ => 0%nat) (fun _ => 0%nat)) = Ok (d1, s1) /\
    generateDict_with EfficientFor (ret 0%nat) s1 = Ok (d2, s2) /\
    table_at s2 d2 = Some t2 /\ t2 !! 2005 = Some 0.
Proof.
  destruct (zip_input_is_used_up EfficientFor
              (State [OZip [("AAA"%string, 2005)]] (fun _ => 0%nat) (fun _ => 0%nat))
              0%nat [("AAA"%string, 2005)] eq_refl)
    as (d1 & s1 & d2 & s2 & t2 & H1 & _ & _ & H2 & H3 & H4).
  { right; right. repeat constructor; cbn; lia. }
  exists d1, s1, d2, s2, t2. split; [exact H1|]. split; [exact H2|].
  split; [exact H3 | apply H4; lia].
Defined.

(** X12: [getUpdateValue(x, yearDict)] on a plain dict: when x's year is
    a key with value c, it returns a new dictionary with the single entry
    year -> c + 1 and changes nothing that existed, [yearDict] included
    (it makes no copy of it); when x's year is no key, it raises
    [KeyError] for that year. *)
Theorem getUpdateValue_result (x : record) (yearDict : loc) (s : state) (m : gmap Z Z) :
  heap s !! yearDict = Some (ODict None m) ->
  getUpdateValue x yearDict s =
  match m !! x.2 with
  | Some c => Ok (length (heap s), set_heap s (heap s ++ [ODict None {[x.2 := c + 1]}]))
  | None => Raise (KeyError (x.2))
  end.
Proof.
  intros Hd. destruct (m !! x.2) as [c|] eqn:Hc.
  - now apply getUpdateValue_Ok with (df := None) (m := m).
  - now apply getUpdateValue_KeyError with (m := m).
Qed.

Lemma getUpdateValue_result_witness :
  getUpdateValue ("ABC"%string, 2001) 0%nat
    (State [ODict None {[2001 := 6]}] (fun _ => 0%nat) (fun _ => 0%nat))
  = Ok (1%nat, State [ODict None {[2001 := 6]}; ODict None {[2001 := 7]}]
                     (fun _ => 0%nat) (fun _ => 0%nat)) /\
  getUpdateValue ("ABC"%string, 2002) 0%nat
    (State [ODict None {[2001 := 6]}] (fun _ => 0%nat) (fun _ => 0%nat))
  = Raise (KeyError 2002).
Proof.
  split.
  - rewrite (getUpdateValue_result ("ABC"%string, 2001) 0%nat
               (State [ODict None {[2001 := 6]}] (fun _ => 0%nat) (fun _ => 0%nat))
               {[2001 := 6]} eq_refl).
    vm_compute. reflexivity.
  - rewrite (getUpdateValue_result ("ABC"%string, 2002) 0%nat
               (State [ODict None {[2001 := 6]}] (fun _ => 0%nat) (fun _ => 0%nat))
               {[2001 := 6]} eq_refl).
    vm_compute. reflexivity.
Defined.

(** ** Algebra of the tables *)

(** X13: the order of the records does not matter: on a permutation of
    an input on which the variant returns, it returns the same table. *)
Theorem order_does_not_matter (v : variant) (recs1 recs2 : list record) (s1 s2 : state) :
  recs1 ≡ₚ recs2 ->
  returns_on v recs1 ->
  exists t, aggregate v recs1 s1 = Ok t /\ aggregate v recs2 s2 = Ok t.
Proof.
  intros Hp Hret. exists (year_table recs1). split; [now apply aggregate_returns|].
  rewrite (year_table_perm _ _ Hp). apply aggregate_returns.
  now apply returns_on_perm with (recs1 := recs1).
Qed.

Lemma order_does_not_matter_witness :
  exists t,
    aggregate Efficient2 [("AAA"%string, 2005); ("BBB"%string, 2010)] empty_state = Ok t /\
    aggregate Efficient2 [("BBB"%string, 2010); ("AAA"%string, 2005)] empty_state = Ok t.
Proof.
  apply (order_does_not_matter Efficient2
           [("AAA"%string, 2005); ("BBB"%string, 2010)]
           [("BBB"%string, 2010); ("AAA"%string, 2005)] empty_state empty_state).
  - apply perm_swap.
  - right; right. repeat constructor; cbn; lia.
Defined.

(** X14: the table of a concatenation is the key-wise sum of the tables
    of its parts. *)
Theorem concatenation_adds_tables (v : variant) (recs1 recs2 : list record) (s : state) :
  returns_on v (recs1 ++ recs2) ->
  exists t1 t2,
    aggregate v recs1 s = Ok t1 /\
    aggregate v recs2 s = Ok t2 /\
    aggregate v (recs1 ++ recs2) s = Ok (union_with (fun a b => Some (a + b)) t1 t2).
Proof.
  intros Hret. destruct (returns_on_app _ _ _ Hret) as [H1 H2].
  exists (year_table recs1), (year_table recs2).
  split; [now apply aggregate_returns|]. split; [now apply aggregate_returns|].
  rewrite <- year_table_app. now apply aggregate_returns.
Qed.

Lemma concatenation_adds_tables_witness :
  exists t1 t2,
    aggregate EfficientFor [("AAA"%string, 2005)] empty_state = Ok t1 /\
    aggregate EfficientFor [("BBB"%string, 2005); ("CCC"%string, 2001)] empty_state = Ok t2 /\
    aggregate EfficientFor
      ([("AAA"%string, 2005)] ++ [("BBB"%string, 2005); ("CCC"%string, 2001)]) empty_state
    = Ok (union_with (fun a b => Some (a + b)) t1 t2).
Proof.
  apply (concatenation_adds_tables EfficientFor).
  right; right. repeat constructor; cbn; lia.
Defined.

(** X15: [generateDictEfficient2] and [generateDictEfficientFor] stop at
    the first record whose year is outside 2000..2018 and raise
    [KeyError] for that year, whatever follows it. *)
Theorem first_bad_year_raises (v : variant) (pre post : list record) (r : record) (s : state) :
  v = Efficient2 \/ v = EfficientFor ->
  Forall (fun p : record => 2000 <= p.2 <= 2018) pre ->
  ~ 2000 <= r.2 <= 2018 ->
  aggregate v (pre ++ r :: post) s = Raise (KeyError (r.2)).
Proof.
  intros Hv Hpre Hr. rewrite aggregate_outcome.
  assert (Hfm : first_missing zero_table ((pre ++ r :: post).*2) = Some (r.2)).
  { rewrite fmap_app, first_missing_app.
    rewrite (proj2 (first_missing_in_range pre) Hpre).
    cbn [fmap list_fmap first_missing]. rewrite fill_zero_lookup.
    now rewrite decide_False by exact Hr. }
  destruct Hv as [-> | ->]; cbn [expected_outcome]; now rewrite Hfm.
Qed.

Lemma first_bad_year_raises_witness :
  aggregate EfficientFor
    ([("AAA"%string, 2005)] ++ ("BBB"%string, 2019) :: [("CCC"%string, 1999)]) empty_state
  = Raise (KeyError 2019).
Proof.
  apply (first_bad_year_raises EfficientFor [("AAA"%string, 2005)]
           [("CCC"%string, 1999)] ("BBB"%string, 2019) empty_state).
  - now right.
  - repeat constructor; cbn; lia.
  - cbn. lia.
Defined.

(** X16: for [generateDictInefficient] and [generateDictEfficient1] the
    check of the unit tests, sum of the values = number of records, holds
    exactly when every record's year lies in 2000..2018. *)
Theorem size_check_detects_range (recs : list record) (s : state) :
  (exists t, aggregate Inefficient recs s = Ok t /\
             (sum_values t = Z.of_nat (length recs) <->
              Forall (fun r : record => 2000 <= r.2 <= 2018) recs)) /\
  (exists t, aggregate Efficient1 recs s = Ok t /\
             (sum_values t = Z.of_nat (length recs) <->
              Forall (fun r : record => 2000 <= r.2 <= 2018) recs)).
Proof.
  assert (H : sum_values (year_table recs) = Z.of_nat (length recs) <->
              Forall (fun r : record => in_range (r.2)) recs).
  { rewrite sum_values_year_table. split.
    - intros Hsum. destruct (decide (Forall (fun r : record => in_range (r.2)) recs))
        as [Hall|Hnot]; [exact Hall|].
      apply not_Forall_Exists in Hnot; [|intros r; apply _].
      apply records_in_range_lt in Hnot. lia.
    - apply records_in_range_all. }
  split; exists (year_table recs); (split; [apply aggregate_returns | exact H]).
  - now left.
  - right; now left.
Qed.
